(** * Vehicle counter: the crossing-detection and deduplication engine

    A shallow embedding of [backend.py]: the location reader
    ([get_current_location]), the class mapping ([map_vehicle_class]), the
    segment test ([crossed_line]) and the main loop with its per-detection
    body, followed by the properties established about them; and of the
    parts of [app.py] that write the location file and shape the answers of
    the API (module [App]).

    Conventions of the embedding.
    - Pixel centres, gate end points and counters are Python integers: [Z].
    - Tracker ids are the integer-valued numbers the tracker hands out: [Z]
      (so [int(box_id)] is the identity).
    - Bounding-box corners, confidences and [time.time()] values are the
      rational values of the floats; sums and differences are taken exactly.
      No property below depends on a rounded digit.
    - Text is a [string] whose characters are code points below 256.
    - [object_memory] is a [gmap], [counted_ids] a [gset].
    - The database, the CSV file and the console are output traces kept in
      the state; the outcome of each database insert is read from an oracle
      indexed by the number of inserts attempted so far.  The timestamp
      column is wall-clock data and is left out of the recorded rows; the
      CSV write is an append to the trace.
    - Drawing, the FPS overlay and the start-up banner are left out. *)

From Stdlib Require Import ZArith QArith Qround Qfield String Ascii List Bool Lia Lqa.
From stdpp Require Import base gmap strings list fin_maps.
Import ListNotations.

Local Open Scope string_scope.
Local Open Scope Z_scope.

(** ** Configuration *)

Definition point : Type := (Z * Z)%type.

Definition LINE_START : point := (100, 180).
Definition LINE_END : point := (700, 50).

(** [CONFIDENCE_THRESHOLD = 0.3]: the double nearest to three tenths. *)
Definition CONFIDENCE_THRESHOLD : Q := 5404319552844595 # 18014398509481984.
Definition FRAME_SKIP : Z := 3.

(** ** Crossing detector *)

Module Geometry.

(** The quantity whose sign [ccw] tests, written as one difference. *)
Definition cross (A B C : point) : Z :=
  (snd C - snd A) * (fst B - fst A) - (snd B - snd A) * (fst C - fst A).

(** [ccw(A, B, C)], the inner function of [crossed_line]. *)
Definition ccw (A B C : point) : bool :=
  (snd C - snd A) * (fst B - fst A) >? (snd B - snd A) * (fst C - fst A).

(** [crossed_line(prev, curr, line_start, line_end)]; [!=] on booleans is
    exclusive or. *)
Definition crossed_line (prev curr line_start line_end : point) : bool :=
  xorb (ccw line_start prev curr) (ccw line_end prev curr)
  && xorb (ccw line_start line_end prev) (ccw line_start line_end curr).

(** The specification's argument order: gate first, displacement second. *)
Definition crossed (gate_start gate_end prev_point curr_point : point) : bool :=
  crossed_line prev_point curr_point gate_start gate_end.

(** Points of the plane with rational coordinates, and the closed segment
    between two pixel points, used to say what two segments share. *)
Definition qpoint : Type := (Q * Q)%type.

Definition qpoint_eq (X Y : qpoint) : Prop :=
  (fst X == fst Y)%Q /\ (snd X == snd Y)%Q.

Definition of_point (A : point) : qpoint := (inject_Z (fst A), inject_Z (snd A)).

Definition on_segment (A B : point) (X : qpoint) : Prop :=
  exists t : Q,
    (0 <= t)%Q /\ (t <= 1)%Q /\
    (fst X == inject_Z (fst A) + t * (inject_Z (fst B) - inject_Z (fst A)))%Q /\
    (snd X == inject_Z (snd A) + t * (inject_Z (snd B) - inject_Z (snd A)))%Q.

(** The two segments meet in exactly one point, [X]. *)
Definition share_only (A B C D : point) (X : qpoint) : Prop :=
  on_segment A B X /\ on_segment C D X /\
  forall Y, on_segment A B Y -> on_segment C D Y -> qpoint_eq Y X.

Definition collinear (A B C : point) : Prop := cross A B C = 0.

(** Both segments on one line and touching. *)
Definition collinear_touching (S E P Q : point) : Prop :=
  collinear S E P /\ collinear S E Q /\
  exists X, on_segment S E X /\ on_segment P Q X.

(** The segments meet in one point only, an end point of one of them. *)
Definition endpoint_touching (S E P Q : point) : Prop :=
  exists X, share_only S E P Q X /\
    (qpoint_eq X (of_point S) \/ qpoint_eq X (of_point E) \/
     qpoint_eq X (of_point P) \/ qpoint_eq X (of_point Q)).

(** A tie between the gate [S]-[E] and the displacement [P]-[Q]. *)
Definition tie (S E P Q : point) : Prop :=
  collinear_touching S E P Q \/ endpoint_touching S E P Q.


End Geometry.

Import Geometry.

(** ** Text helpers: [str.strip] and [str.lower] on code points below 256 *)

Module Text.

(** [str.isspace] for one character: TAB..CR, FS..US, space, NEL, NBSP. *)
Definition is_space (c : ascii) : bool :=
  let n := N_of_ascii c in
  ((9 <=? n) && (n <=? 13) || (28 <=? n) && (n <=? 32)
   || (n =? 133) || (n =? 160))%N.

Fixpoint lstrip (s : string) : string :=
  match s with
  | EmptyString => EmptyString
  | String c r => if is_space c then lstrip r else s
  end.

Fixpoint rstrip (s : string) : string :=
  match s with
  | EmptyString => EmptyString
  | String c r =>
      match rstrip r with
      | EmptyString => if is_space c then EmptyString else String c EmptyString
      | r' => String c r'
      end
  end.

Definition strip (s : string) : string := rstrip (lstrip s).

Fixpoint all_space (s : string) : bool :=
  match s with
  | EmptyString => true
  | String c r => is_space c && all_space r
  end.

(** [str.lower] for one character: A..Z and the Latin-1 capitals. *)
Definition lower_char (c : ascii) : ascii :=
  let n := N_of_ascii c in
  if ((65 <=? n) && (n <=? 90)
      || (192 <=? n) && (n <=? 222) && negb (n =? 215))%N
  then ascii_of_N (n + 32) else c.

Fixpoint lower (s : string) : string :=
  match s with
  | EmptyString => EmptyString
  | String c r => String (lower_char c) (lower r)
  end.

End Text.

(** ** What the program prints, and what it writes *)

Inductive console_line : Type :=
  | ErrorReadingLocation                       (* "Error reading location config" *)
  | CurrentActiveLocation (loc : string)       (* "Current active location" *)
  | LoggedToDatabase (vehicle_type : string) (vehicle_id : Z) (loc : string)
  | ErrorLoggingToDatabase                     (* "Error logging to database" *)
  | VideoEndedRestarting                       (* "Video ended, restarting..." *)
  | LocationChangedTo (loc : string)           (* "Location changed to" *)
  | DetectionStopped.                          (* "Detection stopped." *)

(** One row offered to the [vehicles] table or to the CSV file. *)
Record row : Type := Row {
  vehicle_type : string;
  vehicle_id : Z;
  location_id : string
}.

(** One call of [log_vehicle_to_database]: the row it was given and whether
    its [try] block ran to the end. *)
Record insert : Type := Insert {
  offered : row;
  completed : bool
}.

(** ** Location reader *)

(** What [get_current_location] finds on disk. *)
Inductive file_state : Type :=
  | Missing                      (* [os.path.exists] is false *)
  | Unreadable                   (* [open] or [read] raises *)
  | Contents (text : string).

Definition DEFAULT_LOCATION : string := "Basni Crossing".

(** [get_current_location()]: the value returned and the lines printed. *)
Definition get_current_location (f : file_state) : string * list console_line :=
  match f with
  | Contents text =>
      let location_id := Text.strip text in
      if String.eqb location_id "" then (DEFAULT_LOCATION, [])
      else (location_id, [])
  | Unreadable => (DEFAULT_LOCATION, [ErrorReadingLocation])
  | Missing => (DEFAULT_LOCATION, [])
  end.

(** [map_vehicle_class(original_class)] *)
Definition map_vehicle_class (original_class : string) : string :=
  if String.eqb original_class "car" then "car"
  else if String.eqb original_class "motorcycle" then "motorcycle"
  else if String.eqb original_class "truck" then "truck"
  else if String.eqb original_class "bus" then "bus"
  else Text.lower original_class.

(** ** Program state *)

Record state : Type := State {
  current_location : string;
  count_cars : Z;
  count_bikes : Z;
  count_trucks : Z;
  counted_ids : gset Z;
  object_memory : gmap Z point;
  frame_count : Z;
  last_location_check : Q;
  database : list insert;        (* calls of [log_vehicle_to_database], oldest first *)
  csv_rows : list row;           (* rows written to the CSV file, oldest first *)
  console : list console_line    (* lines printed, oldest first *)
}.

(** The module-level initialisation, run at time [t0] with the location
    file in state [f0]. *)
Definition startup (t0 : Q) (f0 : file_state) : state :=
  let '(loc, out) := get_current_location f0 in
  {| current_location := loc;
     count_cars := 0; count_bikes := 0; count_trucks := 0;
     counted_ids := ∅;
     object_memory := ∅;
     frame_count := 0;
     last_location_check := t0;
     database := [];
     csv_rows := [];
     console := out ++ [CurrentActiveLocation loc] |}.

Definition print (l : console_line) (s : state) : state :=
  {| current_location := current_location s;
     count_cars := count_cars s; count_bikes := count_bikes s;
     count_trucks := count_trucks s;
     counted_ids := counted_ids s;
     object_memory := object_memory s;
     frame_count := frame_count s;
     last_location_check := last_location_check s;
     database := database s;
     csv_rows := csv_rows s;
     console := console s ++ [l] |}.

(** ** One detection, as zipped from the tracker's arrays *)

Record detection : Type := Detection {
  box_id : Z;
  label : string;                (* [model.names[int(cls)]] *)
  coord : Q * Q * Q * Q;         (* x1, y1, x2, y2 *)
  conf : Q
}.

(** [int(q)]: truncation toward zero. *)
Definition int_of_Q (q : Q) : Z := Z.quot (Qnum q) (Z.pos (Qden q)).

Definition center (d : detection) : point :=
  let '(x1, y1, x2, y2) := coord d in
  (int_of_Q ((x1 + x2) / 2), int_of_Q ((y1 + y2) / 2)).

Definition Qgtb (a b : Q) : bool := negb (Qle_bool a b).

(** [label in ["car", "motorcycle", "truck", "bus"]] *)
Definition recognized (l : string) : bool :=
  String.eqb l "car" || String.eqb l "motorcycle"
  || String.eqb l "truck" || String.eqb l "bus".

(** The guard of line 165. *)
Definition admitted (d : detection) : bool :=
  recognized (label d) && Qgtb (conf d) (25 # 100).

(** ** Assignments to the globals *)

Definition set_current_location (v : string) (s : state) : state :=
  State v (count_cars s) (count_bikes s) (count_trucks s) (counted_ids s)
        (object_memory s) (frame_count s) (last_location_check s)
        (database s) (csv_rows s) (console s).

Definition set_count_cars (v : Z) (s : state) : state :=
  State (current_location s) v (count_bikes s) (count_trucks s) (counted_ids s)
        (object_memory s) (frame_count s) (last_location_check s)
        (database s) (csv_rows s) (console s).

Definition set_count_bikes (v : Z) (s : state) : state :=
  State (current_location s) (count_cars s) v (count_trucks s) (counted_ids s)
        (object_memory s) (frame_count s) (last_location_check s)
        (database s) (csv_rows s) (console s).

Definition set_count_trucks (v : Z) (s : state) : state :=
  State (current_location s) (count_cars s) (count_bikes s) v (counted_ids s)
        (object_memory s) (frame_count s) (last_location_check s)
        (database s) (csv_rows s) (console s).

Definition set_counted_ids (v : gset Z) (s : state) : state :=
  State (current_location s) (count_cars s) (count_bikes s) (count_trucks s) v
        (object_memory s) (frame_count s) (last_location_check s)
        (database s) (csv_rows s) (console s).

Definition set_object_memory (v : gmap Z point) (s : state) : state :=
  State (current_location s) (count_cars s) (count_bikes s) (count_trucks s)
        (counted_ids s) v (frame_count s) (last_location_check s)
        (database s) (csv_rows s) (console s).

Definition set_frame_count (v : Z) (s : state) : state :=
  State (current_location s) (count_cars s) (count_bikes s) (count_trucks s)
        (counted_ids s) (object_memory s) v (last_location_check s)
        (database s) (csv_rows s) (console s).

Definition set_last_location_check (v : Q) (s : state) : state :=
  State (current_location s) (count_cars s) (count_bikes s) (count_trucks s)
        (counted_ids s) (object_memory s) (frame_count s) v
        (database s) (csv_rows s) (console s).

Definition set_database (v : list insert) (s : state) : state :=
  State (current_location s) (count_cars s) (count_bikes s) (count_trucks s)
        (counted_ids s) (object_memory s) (frame_count s) (last_location_check s)
        v (csv_rows s) (console s).

Definition set_csv_rows (v : list row) (s : state) : state :=
  State (current_location s) (count_cars s) (count_bikes s) (count_trucks s)
        (counted_ids s) (object_memory s) (frame_count s) (last_location_check s)
        (database s) v (console s).

(** ** What one pass of [while True] reads from the outside world *)

Record tick : Type := Tick {
  cap_read : bool;                       (* [ret] of [cap.read()] *)
  time_now : Q;                          (* [time.time()] on line 139 *)
  location_file : file_state;            (* the location file, if it is read *)
  tracked : option (list detection);     (* the tracker's answer for this frame,
                                            read only if the frame is processed;
                                            [None]: [boxes.id is None] *)
  key : Z                                (* [cv2.waitKey(1)] *)
}.

Section Engine.

(** [db_ok n]: does the [try] block of the [n]-th call (counted from 0) of
    [log_vehicle_to_database] run to its end? *)
Variable db_ok : nat -> bool.

(** [log_vehicle_to_database(vehicle_type, vehicle_id, location_id)] *)
Definition log_vehicle_to_database
    (vtype : string) (vid : Z) (loc : string) (s : state) : state :=
  let ok := db_ok (length (database s)) in
  let s := set_database (database s ++ [Insert (Row vtype vid loc) ok]) s in
  if ok then print (LoggedToDatabase vtype vid loc) s
  else print ErrorLoggingToDatabase s.

(** The counter update of lines 188-193. *)
Definition bump_counter (l : string) (s : state) : state :=
  if String.eqb l "car" then set_count_cars (count_cars s + 1) s
  else if String.eqb l "motorcycle" then set_count_bikes (count_bikes s + 1) s
  else if String.eqb l "truck" then set_count_trucks (count_trucks s + 1) s
  else s.

(** The body of the [for] loop of line 159, drawing left out. *)
Definition process_detection (d : detection) (s : state) : state :=
  let c := center d in
  if admitted d then
    let prev_center := default c (object_memory s !! box_id d) in
    let s := set_object_memory (<[box_id d := c]> (object_memory s)) s in
    if crossed_line prev_center c LINE_START LINE_END
       && bool_decide (box_id d ∉ counted_ids s)
    then
      let s := set_counted_ids ({[box_id d]} ∪ counted_ids s) s in
      let mapped_class := map_vehicle_class (label d) in
      let s := log_vehicle_to_database mapped_class (box_id d) (current_location s) s in
      let s := set_csv_rows
                 (csv_rows s ++ [Row mapped_class (box_id d) (current_location s)]) s in
      bump_counter (label d) s
    else s
  else s.

(** The whole [for] loop over one frame's detections, in order. *)
Definition process_frame (ds : list detection) (s : state) : state :=
  fold_left (fun s d => process_detection d s) ds s.

(** Lines 139-145: the timed location check. *)
Definition location_check (t : tick) (s : state) : state :=
  let current_time := time_now t in
  if Qgtb (current_time - last_location_check s) 5 then
    let '(new_location, out) := get_current_location (location_file t) in
    let s := fold_left (fun s l => print l s) out s in
    let s :=
      if negb (String.eqb new_location (current_location s)) then
        print (LocationChangedTo new_location)
              (set_current_location new_location s)
      else s in
    set_last_location_check current_time s
  else s.

(** One pass of the [while True] body.  The boolean is [true] when the loop
    goes round again ([continue] or falling off the end) and [false] on
    [break]. *)
Definition iteration (t : tick) (s : state) : state * bool :=
  if negb (cap_read t) then
    (print VideoEndedRestarting s, true)
  else
    let s := set_frame_count (frame_count s + 1) s in
    if negb (frame_count s mod FRAME_SKIP =? 0) then (s, true)
    else
      let s := location_check t s in
      let s := match tracked t with
               | Some ds => process_frame ds s
               | None => s
               end in
      (s, negb (Z.land (key t) 255 =? 27)).

(** The first [n] passes of the loop, the world being [env]: pass [i] reads
    [env i].  Once the loop has been left the state no longer changes. *)
Fixpoint main_loop (env : nat -> tick) (s0 : state) (n : nat) : state * bool :=
  match n with
  | O => (s0, true)
  | S k =>
      let '(s, running) := main_loop env s0 k in
      if running then iteration (env k) s else (s, false)
  end.

(** What follows the loop once it has been left. *)
Definition cleanup (s : state) : state := print DetectionStopped s.

(** The program run for [n] passes from its start. *)
Definition program (t0 : Q) (f0 : file_state) (env : nat -> tick) (n : nat)
  : state * bool :=
  main_loop env (startup t0 f0) n.

End Engine.

(** ** Reading the output traces *)

(** The rows carrying vehicle id [i] among those offered to the database. *)
Definition offered_for (i : Z) (db : list insert) : list insert :=
  List.filter (fun a => vehicle_id (offered a) =? i) db.

Definition rows_for (i : Z) (rows : list row) : list row :=
  List.filter (fun r => vehicle_id r =? i) rows.

(** The state the program starts in when there is no location file. *)
Definition blank : state := startup 0 Missing.


(** ** Vocabulary for the location reader *)

(** The read yields nothing usable: no file, an error, or only white space. *)
Definition failed_read (f : file_state) : Prop :=
  f = Missing \/ f = Unreadable \/
  exists text, f = Contents text /\ Text.all_space text = true.

(** The guard of line 140 holds: a location check happens in this pass. *)
Definition check_due (t : tick) (s : state) : Prop :=
  Qgtb (time_now t - last_location_check s) 5 = true.

(** ** Vocabulary for the engine *)

(** The guards of lines 165 and 173 together: this detection, met in this
    state, is counted. *)
Definition fires (d : detection) (s : state) : bool :=
  admitted d
  && crossed_line (default (center d) (object_memory s !! box_id d))
                  (center d) LINE_START LINE_END
  && bool_decide (box_id d ∉ counted_ids s).

(** The row a counted detection is recorded as. *)
Definition event_row (d : detection) (s : state) : row :=
  Row (map_vehicle_class (label d)) (box_id d) (current_location s).

(** How many of the rows offered to the database carry a given type. *)
Definition offered_of_type (ty : string) (db : list insert) : Z :=
  Z.of_nat (length (List.filter (fun a => String.eqb (vehicle_type (offered a)) ty) db)).


Definition is_insert_error (l : console_line) : bool :=
  match l with ErrorLoggingToDatabase => true | _ => false end.

Definition insert_errors_printed (out : list console_line) : nat :=
  length (List.filter is_insert_error out).

(** Everything the engine holds and writes, apart from the outcome of the
    database inserts and the console. *)
Record engine_view : Type := View {
  view_location : string;
  view_counts : Z * Z * Z;
  view_counted : gset Z;
  view_memory : gmap Z point;
  view_frame_count : Z;
  view_last_check : Q;
  view_offered : list row;
  view_csv : list row
}.

Definition view (s : state) : engine_view :=
  {| view_location := current_location s;
     view_counts := (count_cars s, count_bikes s, count_trucks s);
     view_counted := counted_ids s;
     view_memory := object_memory s;
     view_frame_count := frame_count s;
     view_last_check := last_location_check s;
     view_offered := List.map offered (database s);
     view_csv := csv_rows s |}.

(** The id [i] occurs in no batch handed over in the passes before [n]. *)
Definition unseen_before (env : nat -> tick) (n : nat) (i : Z) : Prop :=
  forall k ds d, (k < n)%nat -> tracked (env k) = Some ds -> In d ds -> box_id d <> i.

(** A frame source that never yields a frame again. *)
Definition exhausted (env : nat -> tick) : Prop :=
  forall k, cap_read (env k) = false.

Definition dead_tick : tick := Tick false 0 Missing None (-1).
Definition dead_source : nat -> tick := fun _ => dead_tick.

(** The loop is left within finitely many passes. *)
Definition stops (db_ok : nat -> bool) (env : nat -> tick) (s0 : state) : Prop :=
  exists n, snd (main_loop db_ok env s0 n) = false.

(** A property of states that survives the loop's housekeeping: printing
    anything but a database failure line, and assigning [frame_count],
    [current_location] or [last_location_check]. *)
Definition housekeeping_stable (P : state -> Prop) : Prop :=
  (forall l s, is_insert_error l = false -> P s -> P (print l s)) /\
  (forall v s, P s -> P (set_frame_count v s)) /\
  (forall v s, P s -> P (set_current_location v s)) /\
  (forall v s, P s -> P (set_last_location_check v s)).

(** Every id with a row in the database or the CSV file is in
    [counted_ids], and no id has more than one row in either. *)
Definition at_most_once (s : state) : Prop :=
  forall i,
    (i ∉ counted_ids s ->
       offered_for i (database s) = [] /\ rows_for i (csv_rows s) = []) /\
    (length (offered_for i (database s)) <= 1)%nat /\
    (length (rows_for i (csv_rows s)) <= 1)%nat.

(** The three counters are the numbers of car, motorcycle and truck rows
    offered to the database, and every row has a recognized type. *)
Definition counters_match (s : state) : Prop :=
  count_cars s = offered_of_type "car" (database s) /\
  count_bikes s = offered_of_type "motorcycle" (database s) /\
  count_trucks s = offered_of_type "truck" (database s) /\
  forall a, In a (database s) -> recognized (vehicle_type (offered a)) = true.

(** No counter is smaller in [s'] than in [s]. *)
Definition counters_le (s s' : state) : Prop :=
  count_cars s <= count_cars s' /\
  count_bikes s <= count_bikes s' /\
  count_trucks s <= count_trucks s'.

(** The filter as the specification words it: recognized label and a
    confidence above the configured threshold. *)
Definition admitted_as_specified (d : detection) : bool :=
  recognized (label d) && Qgtb (conf d) CONFIDENCE_THRESHOLD.

(** ** Sample data *)

Definition box_at (x y : Z) : Q * Q * Q * Q :=
  (inject_Z x - 10, inject_Z y - 10, inject_Z x + 10, inject_Z y + 10)%Q.

(** A detection of object [i], labelled [l], centred at [(x, y)]. *)
Definition see (i : Z) (l : string) (x y : Z) (c : Q) : detection :=
  Detection i l (box_at x y) c.

Definition always_ok : nat -> bool := fun _ => true.
Definition never_ok : nat -> bool := fun _ => false.

(** A pass that reads a frame in which the tracker reports [ds]. *)
Definition frame (ds : list detection) : tick := Tick true 0 Missing (Some ds) (-1).

(** Nine frames, every third one processed: object 7 goes down through the
    gate, then back up through it. *)
Definition there_and_back : nat -> tick := fun k =>
  match k with
  | 2%nat => frame [see 7 "car" 300 200 (9 # 10)]
  | 5%nat => frame [see 7 "car" 300 100 (9 # 10)]
  | 8%nat => frame [see 7 "car" 300 200 (9 # 10)]
  | _ => frame []
  end.

(** ** More vocabulary for the crossing detector *)

(** The direction vectors of the two segments have a zero cross product. *)
Definition parallel (S E P Q : point) : Prop :=
  (snd Q - snd P) * (fst E - fst S) - (snd E - snd S) * (fst Q - fst P) = 0.

(** [X] lies on the segment [A]-[B] and is neither of its end points. *)
Definition strictly_inside (A B : point) (X : Geometry.qpoint) : Prop :=
  exists t : Q,
    (0 < t)%Q /\ (t < 1)%Q /\
    (fst X == inject_Z (fst A) + t * (inject_Z (fst B) - inject_Z (fst A)))%Q /\
    (snd X == inject_Z (snd A) + t * (inject_Z (snd B) - inject_Z (snd A)))%Q.

(** ** More vocabulary for the engine *)

(** The ids of the rows offered to the database, oldest first. *)
Definition offered_ids (db : list insert) : list Z :=
  List.map (fun a => vehicle_id (offered a)) db.

(** The centre of the last detection of object [i] in [ds] that passes the
    filter, if there is one. *)
Definition last_seen (i : Z) (ds : list detection) : option point :=
  center <$> last (List.filter (fun d => admitted d && (box_id d =? i)) ds).

(** How many of the first [n] passes read a frame. *)
Definition frames_read (env : nat -> tick) (n : nat) : Z :=
  Z.of_nat (length (List.filter (fun k => cap_read (env k)) (seq 0 n))).

(** From [s] to [s'] no counted id and no remembered object was lost. *)
Definition grown (s s' : state) : Prop :=
  counted_ids s ⊆ counted_ids s' /\
  dom (object_memory s) ⊆ dom (object_memory s').

(** A usable location id: not empty and with no white space around it. *)
Definition clean (l : string) : Prop := l <> "" /\ Text.strip l = l.


(** ** The dashboard application ([app.py]) *)

Module App.

(** [LOCATIONS]: location id to display name. *)
Definition LOCATIONS : gmap string string :=
  list_to_map
    [("Basni Crossing", "Basni Crossing, Jodhpur");
     ("Bhagat ki kothi crossing", "Bhagat ki kothi crossing, Jodhpur");
     ("Rai ka bagh crossing", "Rai ka bagh crossing, Jodhpur")].

Inductive app_line : Type :=
  | FrontendUpdated (location_id : string)   (* "Frontend updated active location" *)
  | ErrorWritingLocation.                    (* "Error writing location config file" *)

(** How the [try] block of [write_current_location_to_file] ends: it runs
    through, or it raises and leaves the file in the state [after]. *)
Inductive write_outcome : Type :=
  | Written
  | WriteFailed (after : file_state).

(** [write_current_location_to_file(location_id)]: the file afterwards and
    the line printed.  The text written holds no line breaks, so it is read
    back as written. *)
Definition write_current_location_to_file
    (w : write_outcome) (location_id : string) : file_state * list app_line :=
  match w with
  | Written => (Contents location_id, [FrontendUpdated location_id])
  | WriteFailed after => (after, [ErrorWritingLocation])
  end.

(** What a route returns. *)
Inductive response : Type :=
  | Status404 (body : string)
  | Redirect (endpoint : string) (location_id : string)
  | Render (template : string) (location_id location_name : string).

(** [set_active_location(location_id)]: the response, the file afterwards
    and the lines printed; [f] is the file before the request. *)
Definition set_active_location
    (w : write_outcome) (location_id : string) (f : file_state)
  : response * file_state * list app_line :=
  match LOCATIONS !! location_id with
  | None => (Status404 "Location not found", f, [])
  | Some _ =>
      let '(f', out) := write_current_location_to_file w location_id in
      (Redirect "dashboard" location_id, f', out)
  end.

(** [dashboard(location_id)] *)
Definition dashboard (location_id : string) : response :=
  match LOCATIONS !! location_id with
  | None => Status404 "Location not found"
  | Some location_name => Render "dashboard.html" location_id location_name
  end.

(** Truth value of a query parameter: [None] and the empty string are false. *)
Definition truthy (v : option string) : bool :=
  match v with
  | Some s => negb (String.eqb s "")
  | None => false
  end.

(** The [if]/[elif] chain on [start_date] and [end_date] shared by the
    endpoints; [default] is what the first branch assigns. *)
Definition fill_range (default : option string * option string)
    (start_date end_date : option string) : option string * option string :=
  if negb (truthy start_date) && negb (truthy end_date) then default
  else if truthy start_date && negb (truthy end_date) then (start_date, start_date)
  else if truthy end_date && negb (truthy start_date) then (end_date, end_date)
  else (start_date, end_date).

(** The date range of [vehicle_types_data] and of [hourly]. *)
Definition date_range (today : string) (start_date end_date : option string)
  : option string * option string :=
  fill_range (Some today, Some today) start_date end_date.

(** The date range of [summary_data], with its second defaulting block. *)
Definition summary_date_range (today : string) (start_date end_date : option string)
  : option string * option string :=
  let '(start_date, end_date) := date_range today start_date end_date in
  if negb (truthy start_date) then (Some today, Some today)
  else (start_date, end_date).

(** The date range of [daily]: the default is the last seven days. *)
Definition daily_date_range (today six_days_ago : string)
    (start_date end_date : option string) : option string * option string :=
  fill_range (Some six_days_ago, Some today) start_date end_date.

(** [assert start_date is not None and end_date is not None] *)
Definition range_assertion (r : option string * option string) : bool :=
  match r with
  | (Some _, Some _) => true
  | _ => false
  end.

(** The body of the loop of [vehicle_types_data], for one row of the
    query's result. *)
Definition tally_row (counts : gmap string Z) (r : string * Z) : gmap string Z :=
  let '(vehicle_type, count) := r in
  match counts !! vehicle_type with
  | Some _ => <[vehicle_type := count]> counts
  | None => counts
  end.

(** [vehicle_counts] as initialised, and after the loop over [results]. *)
Definition no_vehicles : gmap string Z :=
  <["car" := 0]> (<["truck" := 0]> (<["motorcycle" := 0]> ∅)).

Definition vehicle_counts (results : list (string * Z)) : gmap string Z :=
  fold_left tally_row results no_vehicles.

End App.

(** * Properties *)

(** ** The crossing detector *)

Section Crossing.

Implicit Types A B C S E P Q : point.

Lemma ccw_spec A B C : ccw A B C = true <-> 0 < cross A B C.
Proof. unfold ccw, cross. rewrite Z.gtb_ltb, Z.ltb_lt. lia. Qed.

Lemma ccw_false_spec A B C : ccw A B C = false <-> cross A B C <= 0.
Proof. unfold ccw, cross. rewrite Z.gtb_ltb, Z.ltb_ge. lia. Qed.

Lemma cross_cycle A B C : cross A B C = cross B C A.
Proof. unfold cross. ring. Qed.


Lemma ccw_collinear A B C : collinear A B C -> ccw A B C = false.
Proof. unfold collinear. intros H. apply ccw_false_spec. lia. Qed.


(** A displacement of length zero never crosses. *)
Lemma crossed_line_zero_length C S E : crossed_line C C S E = false.
Proof.
  unfold crossed_line.
  assert (HS : ccw S C C = false) by (apply ccw_false_spec; unfold cross; lia).
  assert (HE : ccw E C C = false) by (apply ccw_false_spec; unfold cross; lia).
  rewrite HS, HE. reflexivity.
Qed.

End Crossing.

(** ** Ties *)

(** C2, counterexample: the program's own gate and the displacement
    (90,190)->(110,170).  The gate's start point (100,180) is the midpoint of
    the displacement and the only point the two segments share, and the test
    answers [true]. *)
Lemma crossed_tie_counterexample :
  tie LINE_START LINE_END (90, 190) (110, 170) /\
  crossed LINE_START LINE_END (90, 190) (110, 170) = true.
Proof.
  split; [| reflexivity].
  right. exists (of_point LINE_START). split.
  - split; [| split].
    + exists 0%Q. unfold of_point, LINE_START, LINE_END, inject_Z.
      cbn [fst snd]. repeat split; lra.
    + exists (1 # 2)%Q. unfold of_point, LINE_START, inject_Z.
      cbn [fst snd]. repeat split; lra.
    + intros [x y] (t & _ & _ & Hx & Hy) (u & _ & _ & Hx' & Hy').
      unfold qpoint_eq, of_point, LINE_START, LINE_END, inject_Z in *.
      cbn [fst snd] in *. split; lra.
  - left. split; reflexivity.
Qed.

(** C2, amended: [crossed] answers [false] when the two segments lie on one
    line, and when the displacement starts at the gate's start point or ends
    at the gate's end point; when an end point of one segment lies on the
    line of the other, it answers [false] provided the far end of that
    segment is not strictly counter-clockwise of the other segment's
    directed line. *)
Theorem crossed_tie_policy (S E P Q : point) :
  (collinear S E P -> collinear S E Q -> crossed S E P Q = false) /\
  (collinear P Q S -> collinear P Q E -> crossed S E P Q = false) /\
  (P = S \/ Q = E -> crossed S E P Q = false) /\
  (collinear S E P -> ccw S E Q = false -> crossed S E P Q = false) /\
  (collinear S E Q -> ccw S E P = false -> crossed S E P Q = false) /\
  (collinear P Q S -> ccw E P Q = false -> crossed S E P Q = false) /\
  (collinear P Q E -> ccw S P Q = false -> crossed S E P Q = false).
Proof.
  unfold crossed, crossed_line.
  assert (on_gate : forall X Y, collinear S E X -> ccw S E Y = false ->
            xorb (ccw S E X) (ccw S E Y) = false /\
            xorb (ccw S E Y) (ccw S E X) = false).
  { intros X Y HX HY. rewrite (ccw_collinear _ _ _ HX), HY. auto. }
  assert (on_path : forall X Y, collinear P Q X -> ccw Y P Q = false ->
            xorb (ccw X P Q) (ccw Y P Q) = false /\
            xorb (ccw Y P Q) (ccw X P Q) = false).
  { intros X Y HX HY.
    assert (ccw X P Q = false) as ->.
    { apply ccw_false_spec. rewrite cross_cycle. unfold collinear in HX. lia. }
    rewrite HY. auto. }
  repeat split.
  - intros HP HQ.
    destruct (on_gate P Q HP (ccw_collinear _ _ _ HQ)) as [-> _].
    apply andb_false_r.
  - intros HS HE.
    assert (ccw E P Q = false) as HE'.
    { apply ccw_false_spec. rewrite cross_cycle. unfold collinear in HE. lia. }
    destruct (on_path S E HS HE') as [-> _]. reflexivity.
  - intros H.
    destruct (xorb (ccw S P Q) (ccw E P Q)) eqn:H1;
      destruct (xorb (ccw S E P) (ccw S E Q)) eqn:H2; try reflexivity.
    exfalso.
    destruct (ccw S P Q) eqn:C1; destruct (ccw E P Q) eqn:C2;
      destruct (ccw S E P) eqn:C3; destruct (ccw S E Q) eqn:C4;
      try discriminate;
      rewrite ?ccw_spec, ?ccw_false_spec in *;
      destruct S, E, P, Q; unfold cross in *; cbn [fst snd] in *;
      destruct H as [H | H]; inversion H; subst; lia.
  - intros HP HQ. destruct (on_gate P Q HP HQ) as [-> _]. apply andb_false_r.
  - intros HQ HP. destruct (on_gate Q P HQ HP) as [_ ->]. apply andb_false_r.
  - intros HS HE. destruct (on_path S E HS HE) as [-> _]. reflexivity.
  - intros HE HS. destruct (on_path E S HE HS) as [_ ->]. reflexivity.
Qed.

Lemma crossed_tie_policy_witness :
  let S := LINE_START in
  let E := LINE_END in
  (collinear S E (160, 167) /\ collinear S E (220, 154) /\
   crossed S E (160, 167) (220, 154) = false) /\
  (collinear (160, 167) (220, 154) S /\ collinear (160, 167) (220, 154) E /\
   crossed S E (160, 167) (220, 154) = false) /\
  crossed S E S (400, 300) = false /\
  (collinear S E (160, 167) /\ ccw S E (160, 100) = false /\
   crossed S E (160, 167) (160, 100) = false) /\
  (collinear S E (160, 167) /\ ccw S E (160, 100) = false /\
   crossed S E (160, 100) (160, 167) = false) /\
  (collinear (110, 170) (90, 190) S /\ ccw E (110, 170) (90, 190) = false /\
   crossed S E (110, 170) (90, 190) = false) /\
  (collinear (690, 60) (710, 40) E /\ ccw S (690, 60) (710, 40) = false /\
   crossed S E (690, 60) (710, 40) = false).
Proof.
  intros S E.
  split; [| split; [| split; [| split; [| split; [| split]]]]].
  - destruct (crossed_tie_policy S E (160, 167) (220, 154)) as (H & _).
    assert (H1 : collinear S E (160, 167)) by reflexivity.
    assert (H2 : collinear S E (220, 154)) by reflexivity.
    exact (conj H1 (conj H2 (H H1 H2))).
  - destruct (crossed_tie_policy S E (160, 167) (220, 154)) as (_ & H & _).
    assert (H1 : collinear (160, 167) (220, 154) S) by reflexivity.
    assert (H2 : collinear (160, 167) (220, 154) E) by reflexivity.
    exact (conj H1 (conj H2 (H H1 H2))).
  - destruct (crossed_tie_policy S E S (400, 300)) as (_ & _ & H & _).
    apply H. left. reflexivity.
  - destruct (crossed_tie_policy S E (160, 167) (160, 100)) as (_ & _ & _ & H & _).
    assert (H1 : collinear S E (160, 167)) by reflexivity.
    assert (H2 : ccw S E (160, 100) = false) by reflexivity.
    exact (conj H1 (conj H2 (H H1 H2))).
  - destruct (crossed_tie_policy S E (160, 100) (160, 167))
      as (_ & _ & _ & _ & H & _).
    assert (H1 : collinear S E (160, 167)) by reflexivity.
    assert (H2 : ccw S E (160, 100) = false) by reflexivity.
    exact (conj H1 (conj H2 (H H1 H2))).
  - destruct (crossed_tie_policy S E (110, 170) (90, 190))
      as (_ & _ & _ & _ & _ & H & _).
    assert (H1 : collinear (110, 170) (90, 190) S) by reflexivity.
    assert (H2 : ccw E (110, 170) (90, 190) = false) by reflexivity.
    exact (conj H1 (conj H2 (H H1 H2))).
  - destruct (crossed_tie_policy S E (690, 60) (710, 40))
      as (_ & _ & _ & _ & _ & _ & H).
    assert (H1 : collinear (690, 60) (710, 40) E) by reflexivity.
    assert (H2 : ccw S (690, 60) (710, 40) = false) by reflexivity.
    exact (conj H1 (conj H2 (H H1 H2))).
Defined.

(** ** Symmetry *)




(** ** The location reader *)

Section Location.

Import Text.

Lemma lstrip_all_space text : all_space text = true -> lstrip text = "".
Proof.
  induction text as [| c r IH]; cbn; [reflexivity |].
  intros H. apply andb_prop in H as [Hc Hr]. rewrite Hc. auto.
Qed.

Lemma lstrip_empty text : lstrip text = "" -> all_space text = true.
Proof.
  induction text as [| c r IH]; cbn; [reflexivity |].
  destruct (is_space c); [auto | discriminate].
Qed.

Lemma lstrip_head text c r : lstrip text = String c r -> is_space c = false.
Proof.
  induction text as [| c' r' IH]; cbn; [discriminate |].
  destruct (is_space c') eqn:Hc; [assumption |].
  intros [= -> _]. assumption.
Qed.

Lemma rstrip_empty c r : is_space c = false -> rstrip (String c r) <> "".
Proof.
  intros Hc. cbn. rewrite Hc. destruct (rstrip r); discriminate.
Qed.

(** [strip] leaves nothing exactly when the text is white space only. *)
Lemma strip_empty_iff text : strip text = "" <-> all_space text = true.
Proof.
  unfold strip. split.
  - intros H. destruct (lstrip text) as [| c r] eqn:HL.
    + apply lstrip_empty. assumption.
    + exfalso. apply (rstrip_empty c r); [apply (lstrip_head text c r HL) | assumption].
  - intros H. rewrite (lstrip_all_space _ H). reflexivity.
Qed.

Lemma get_current_location_failed f :
  failed_read f -> fst (get_current_location f) = DEFAULT_LOCATION.
Proof.
  intros [-> | [-> | (text & -> & H)]]; try reflexivity.
  cbn. apply strip_empty_iff in H. rewrite H. reflexivity.
Qed.

Lemma get_current_location_read text :
  strip text <> "" -> fst (get_current_location (Contents text)) = strip text.
Proof.
  intros H. cbn. destruct (String.eqb_spec (strip text) ""); [contradiction | reflexivity].
Qed.

Lemma current_location_prints out s :
  current_location (fold_left (fun s l => print l s) out s) = current_location s.
Proof. revert s. induction out as [| l out IH]; intros s; cbn; [reflexivity |]. rewrite IH. reflexivity. Qed.

(** After a check that is due, the value held is whatever the read returned. *)
Lemma location_check_due t s :
  check_due t s ->
  current_location (location_check t s) = fst (get_current_location (location_file t)).
Proof.
  unfold check_due, location_check. intros ->.
  destruct (get_current_location (location_file t)) as [new_location out]. cbn [fst].
  destruct (String.eqb_spec new_location
              (current_location (fold_left (fun s l => print l s) out s)))
    as [E | _]; cbn; [symmetry; exact E | reflexivity].
Qed.

Lemma location_check_not_due t s :
  ~ check_due t s -> location_check t s = s.
Proof.
  unfold check_due, location_check. intros H.
  destruct (Qgtb _ _); [exfalso; auto | reflexivity].
Qed.

(** C3, counterexample: the value held is "Rai ka bagh crossing", the check
    is due and the file is gone; the value held afterwards is the default,
    not the previous one. *)
Lemma location_retention_counterexample :
  let s := startup 0 (Contents "Rai ka bagh crossing") in
  let t := Tick true 6 Missing None (-1) in
  current_location s = "Rai ka bagh crossing" /\
  check_due t s /\ failed_read (location_file t) /\
  current_location (location_check t s) = "Basni Crossing" /\
  current_location (location_check t s) <> current_location s.
Proof.
  cbv zeta. repeat split; try reflexivity.
  - left. reflexivity.
  - vm_compute. discriminate.
Qed.

(** C3, amended: when a check is due and the read fails or yields only
    white space, the value held becomes the default "Basni Crossing", so the
    previous value survives exactly when it already was the default; a read
    that yields non-blank content replaces the value by the stripped
    content; a pass in which no check is due leaves the value alone. *)
Theorem location_failure_resets_to_default (t : tick) (s : state) :
  (check_due t s -> failed_read (location_file t) ->
     current_location (location_check t s) = DEFAULT_LOCATION /\
     (current_location (location_check t s) = current_location s
      <-> current_location s = DEFAULT_LOCATION)) /\
  (check_due t s -> forall text, location_file t = Contents text ->
     strip text <> "" ->
     current_location (location_check t s) = strip text) /\
  (~ check_due t s ->
     current_location (location_check t s) = current_location s).
Proof.
  split; [| split].
  - intros Hdue Hfail.
    rewrite (location_check_due t s Hdue), (get_current_location_failed _ Hfail).
    split; [reflexivity |]. split; intros H; congruence.
  - intros Hdue text Hf Hne.
    rewrite (location_check_due t s Hdue), Hf. apply get_current_location_read, Hne.
  - intros H. rewrite (location_check_not_due t s H). reflexivity.
Qed.

Lemma location_failure_resets_to_default_witness :
  let held := startup 0 (Contents "Rai ka bagh crossing") in
  let lost := Tick true 6 Unreadable None (-1) in
  let changed := Tick true 6 (Contents " Bhagat ki kothi crossing ") None (-1) in
  let early := Tick true 2 Missing None (-1) in
  (check_due lost held /\ failed_read (location_file lost) /\
   current_location (location_check lost held) = "Basni Crossing") /\
  (check_due changed held /\ strip " Bhagat ki kothi crossing " <> "" /\
   current_location (location_check changed held) = "Bhagat ki kothi crossing") /\
  (~ check_due early held /\
   current_location (location_check early held) = "Rai ka bagh crossing").
Proof.
  intros held lost changed early.
  split; [| split].
  - destruct (location_failure_resets_to_default lost held) as (H & _).
    assert (H1 : check_due lost held) by reflexivity.
    assert (H2 : failed_read (location_file lost)) by (right; left; reflexivity).
    exact (conj H1 (conj H2 (proj1 (H H1 H2)))).
  - destruct (location_failure_resets_to_default changed held) as (_ & H & _).
    assert (H1 : check_due changed held) by reflexivity.
    assert (H2 : strip " Bhagat ki kothi crossing " <> "").
    { vm_compute. intros E. discriminate E. }
    exact (conj H1 (conj H2 (H H1 " Bhagat ki kothi crossing " eq_refl H2))).
  - destruct (location_failure_resets_to_default early held) as (_ & _ & H).
    assert (H1 : ~ check_due early held).
    { vm_compute. intros E. discriminate E. }
    exact (conj H1 (H H1)).
Defined.

(** C10: a read of a file that is missing, unreadable or blank returns
    "Basni Crossing"; after a due check with such a read the value held is
    "Basni Crossing", whatever was held before. *)
Theorem default_location_fallback (f : file_state) :
  failed_read f ->
  fst (get_current_location f) = "Basni Crossing" /\
  forall t s, check_due t s -> location_file t = f ->
    current_location (location_check t s) = "Basni Crossing".
Proof.
  intros Hfail. split.
  - apply get_current_location_failed, Hfail.
  - intros t s Hdue <-. rewrite (location_check_due t s Hdue).
    apply get_current_location_failed, Hfail.
Qed.

Lemma default_location_fallback_witness :
  let held := startup 0 (Contents "Rai ka bagh crossing") in
  let blanked := Tick true 6 (Contents "  ") None (-1) in
  failed_read (Contents "  ") /\
  fst (get_current_location (Contents "  ")) = "Basni Crossing" /\
  check_due blanked held /\
  current_location held = "Rai ka bagh crossing" /\
  current_location (location_check blanked held) = "Basni Crossing".
Proof.
  intros held blanked.
  assert (H : failed_read (Contents "  ")).
  { right; right. exists "  ". split; reflexivity. }
  destruct (default_location_fallback (Contents "  ") H) as (Hread & Hcheck).
  assert (Hdue : check_due blanked held) by reflexivity.
  split; [exact H | split; [exact Hread | split; [exact Hdue |]]].
  split; [reflexivity | exact (Hcheck blanked held Hdue eq_refl)].
Defined.

End Location.

(** ** One detection *)

(** Case analysis on the label tests of the counter update. *)
Ltac bump_cases :=
  unfold bump_counter;
  repeat match goal with
         | |- context [String.eqb ?a ?b] => destruct (String.eqb a b)
         end.

Section Detection.

Variable db_ok : nat -> bool.

Lemma recognized_cases l :
  recognized l = true ->
  l = "car" \/ l = "motorcycle" \/ l = "truck" \/ l = "bus".
Proof.
  unfold recognized. intros H.
  repeat (apply orb_prop in H as [H | H]); apply String.eqb_eq in H; auto.
Qed.

Lemma map_vehicle_class_recognized l :
  recognized l = true -> map_vehicle_class l = l.
Proof.
  intros H. destruct (recognized_cases l H) as [-> | [-> | [-> | ->]]]; reflexivity.
Qed.

Lemma fires_admitted d s : fires d s = true -> admitted d = true.
Proof. unfold fires. intros H. apply andb_prop in H as [H _]. apply andb_prop in H as [H _]. exact H. Qed.

Lemma fires_not_counted d s : fires d s = true -> box_id d ∉ counted_ids s.
Proof. unfold fires. intros H. apply andb_prop in H as [_ H]. apply bool_decide_eq_true in H. exact H. Qed.

(** The body of the loop, split by whether the detection is counted. *)
Lemma process_detection_unfold d s :
  process_detection db_ok d s =
  if fires d s then
    let s1 := set_counted_ids ({[box_id d]} ∪ counted_ids s)
                (set_object_memory (<[box_id d := center d]> (object_memory s)) s) in
    let s2 := log_vehicle_to_database db_ok (map_vehicle_class (label d))
                (box_id d) (current_location s) s1 in
    bump_counter (label d)
      (set_csv_rows (csv_rows s2 ++ [event_row d s]) s2)
  else if admitted d then
    set_object_memory (<[box_id d := center d]> (object_memory s)) s
  else s.
Proof.
  unfold process_detection, fires.
  destruct (admitted d); cbn [andb]; [| reflexivity].
  cbn [counted_ids set_object_memory].
  destruct (crossed_line _ _ _ _); cbn [andb]; [| reflexivity].
  destruct (bool_decide _); [| reflexivity].
  unfold log_vehicle_to_database.
  destruct (db_ok _); reflexivity.
Qed.

(** What never changes, and the position memory. *)
Lemma process_detection_frame d s :
  current_location (process_detection db_ok d s) = current_location s /\
  frame_count (process_detection db_ok d s) = frame_count s /\
  last_location_check (process_detection db_ok d s) = last_location_check s /\
  object_memory (process_detection db_ok d s)
  = if admitted d then <[box_id d := center d]> (object_memory s)
    else object_memory s.
Proof.
  rewrite process_detection_unfold.
  destruct (fires d s) eqn:H.
  - rewrite (fires_admitted d s H). cbv zeta. unfold log_vehicle_to_database.
    destruct (db_ok _); bump_cases; repeat split; reflexivity.
  - destruct (admitted d); repeat split; reflexivity.
Qed.

(** A detection that is not counted leaves every output alone. *)
Lemma process_detection_quiet d s :
  fires d s = false ->
  database (process_detection db_ok d s) = database s /\
  csv_rows (process_detection db_ok d s) = csv_rows s /\
  counted_ids (process_detection db_ok d s) = counted_ids s /\
  console (process_detection db_ok d s) = console s /\
  count_cars (process_detection db_ok d s) = count_cars s /\
  count_bikes (process_detection db_ok d s) = count_bikes s /\
  count_trucks (process_detection db_ok d s) = count_trucks s.
Proof.
  intros H. rewrite process_detection_unfold, H.
  destruct (admitted d); repeat split; reflexivity.
Qed.

(** A detection that is counted: one insert, one CSV row, one id. *)
Lemma process_detection_counted d s :
  fires d s = true ->
  let ok := db_ok (length (database s)) in
  database (process_detection db_ok d s)
  = (database s ++ [Insert (event_row d s) ok])%list /\
  csv_rows (process_detection db_ok d s) = (csv_rows s ++ [event_row d s])%list /\
  counted_ids (process_detection db_ok d s) = {[box_id d]} ∪ counted_ids s /\
  console (process_detection db_ok d s)
  = (console s ++ [if ok then LoggedToDatabase (map_vehicle_class (label d))
                                                (box_id d) (current_location s)
                   else ErrorLoggingToDatabase])%list.
Proof.
  intros H. rewrite process_detection_unfold, H. cbv zeta.
  unfold log_vehicle_to_database, event_row.
  cbn [database set_counted_ids set_object_memory].
  destruct (db_ok (length (database s))); bump_cases; repeat split; reflexivity.
Qed.

Lemma process_detection_counters d s :
  fires d s = true ->
  count_cars (process_detection db_ok d s)
  = count_cars s + (if String.eqb (label d) "car" then 1 else 0) /\
  count_bikes (process_detection db_ok d s)
  = count_bikes s + (if String.eqb (label d) "motorcycle" then 1 else 0) /\
  count_trucks (process_detection db_ok d s)
  = count_trucks s + (if String.eqb (label d) "truck" then 1 else 0).
Proof.
  intros H. pose proof (fires_admitted d s H) as Ha.
  unfold admitted in Ha. apply andb_prop in Ha as [Hr _].
  rewrite process_detection_unfold, H. cbv zeta.
  unfold log_vehicle_to_database.
  destruct (recognized_cases _ Hr) as [E | [E | [E | E]]]; rewrite E;
    destruct (db_ok _); cbn; repeat split; lia.
Qed.

End Detection.

(** ** Invariants of the loop *)

Section Loop.

Variable db_ok : nat -> bool.

Lemma process_frame_app ds1 ds2 s :
  process_frame db_ok (ds1 ++ ds2) s
  = process_frame db_ok ds2 (process_frame db_ok ds1 s).
Proof. unfold process_frame. apply fold_left_app. Qed.

Lemma process_frame_preserves (P : state -> Prop) (D : detection -> Prop) ds :
  (forall d, In d ds -> D d) ->
  (forall d s, D d -> P s -> P (process_detection db_ok d s)) ->
  forall s, P s -> P (process_frame db_ok ds s).
Proof.
  intros HD Hstep. unfold process_frame.
  induction ds as [| d ds IH]; intros s Hs; cbn; [exact Hs |].
  apply IH.
  - intros d' Hd'. apply HD. right. exact Hd'.
  - apply Hstep; [apply HD; left; reflexivity | exact Hs].
Qed.

Lemma get_current_location_lines f l :
  In l (snd (get_current_location f)) -> is_insert_error l = false.
Proof.
  destruct f as [| | text]; cbn.
  - intros [].
  - intros [<- | []]. reflexivity.
  - destruct (String.eqb _ _); intros [].
Qed.

Lemma prints_preserve (P : state -> Prop) out :
  (forall l s, is_insert_error l = false -> P s -> P (print l s)) ->
  (forall l, In l out -> is_insert_error l = false) ->
  forall s, P s -> P (fold_left (fun s l => print l s) out s).
Proof.
  intros Hp. induction out as [| l out IH]; intros Hout s Hs; cbn; [exact Hs |].
  apply IH.
  - intros l' Hl'. apply Hout. right. exact Hl'.
  - apply Hp; [apply Hout; left; reflexivity | exact Hs].
Qed.

Lemma location_check_preserves (P : state -> Prop) t s :
  housekeeping_stable P -> P s -> P (location_check t s).
Proof.
  intros (Hp & _ & Hl & Hc) Hs. unfold location_check.
  destruct (Qgtb _ _); [| exact Hs].
  pose proof (get_current_location_lines (location_file t)) as Hout.
  destruct (get_current_location (location_file t)) as [new_location out].
  cbn [snd] in Hout. apply Hc.
  pose proof (prints_preserve P out Hp Hout s Hs) as Hs'.
  destruct (negb _); [| exact Hs'].
  apply Hp; [reflexivity |]. apply Hl. exact Hs'.
Qed.

Lemma iteration_preserves (P : state -> Prop) (D : detection -> Prop) t s :
  housekeeping_stable P ->
  (forall ds d, tracked t = Some ds -> In d ds -> D d) ->
  (forall d s, D d -> P s -> P (process_detection db_ok d s)) ->
  P s -> P (fst (iteration db_ok t s)).
Proof.
  intros Hk HD Hstep Hs. pose proof Hk as (Hp & Hf & _ & _).
  unfold iteration.
  destruct (negb (cap_read t)); cbn [fst].
  { apply Hp; [reflexivity | exact Hs]. }
  destruct (negb _); cbn [fst].
  { apply Hf. exact Hs. }
  assert (Hs' : P (location_check t (set_frame_count (frame_count s + 1) s))).
  { apply location_check_preserves; [exact Hk |]. apply Hf. exact Hs. }
  destruct (tracked t) as [ds |]; [| exact Hs'].
  apply (process_frame_preserves P D); [intros d; apply HD; reflexivity | exact Hstep | exact Hs'].
Qed.

(** One more pass either changes nothing (the loop was left) or is one
    [iteration]. *)
Lemma main_loop_succ env s0 k :
  main_loop db_ok env s0 (S k)
  = if snd (main_loop db_ok env s0 k)
    then iteration db_ok (env k) (fst (main_loop db_ok env s0 k))
    else (fst (main_loop db_ok env s0 k), false).
Proof. cbn. destruct (main_loop db_ok env s0 k) as [s r]. reflexivity. Qed.

(** The invariant rule for the main loop. *)
Lemma main_loop_preserves (P : state -> Prop) (D : detection -> Prop) env n :
  housekeeping_stable P ->
  (forall k ds d, (k < n)%nat -> tracked (env k) = Some ds -> In d ds -> D d) ->
  (forall d s, D d -> P s -> P (process_detection db_ok d s)) ->
  forall s0, P s0 -> P (fst (main_loop db_ok env s0 n)).
Proof.
  intros Hk HD Hstep s0 Hs0.
  induction n as [| k IH]; [exact Hs0 |].
  rewrite main_loop_succ.
  assert (IH' : P (fst (main_loop db_ok env s0 k))).
  { apply IH. intros j ds d Hj. apply HD. lia. }
  destruct (snd (main_loop db_ok env s0 k)); [| exact IH'].
  apply (iteration_preserves P D); [exact Hk | | exact Hstep | exact IH'].
  intros ds d. apply HD. lia.
Qed.

End Loop.

(** ** At most one event per id *)

Section AtMostOnce.

Variable db_ok : nat -> bool.

Lemma offered_for_app i db a :
  offered_for i (db ++ [a])
  = (offered_for i db ++ if vehicle_id (offered a) =? i then [a] else [])%list.
Proof.
  unfold offered_for. rewrite List.filter_app. cbn.
  destruct (vehicle_id (offered a) =? i); reflexivity.
Qed.

Lemma rows_for_app i rows r :
  rows_for i (rows ++ [r])
  = (rows_for i rows ++ if vehicle_id r =? i then [r] else [])%list.
Proof.
  unfold rows_for. rewrite List.filter_app. cbn.
  destruct (vehicle_id r =? i); reflexivity.
Qed.

Lemma at_most_once_housekeeping : housekeeping_stable at_most_once.
Proof.
  split; [| split; [| split]].
  - intros l s _ H. exact H.
  - intros v s H. exact H.
  - intros v s H. exact H.
  - intros v s H. exact H.
Qed.

Lemma at_most_once_startup t0 f0 : at_most_once (startup t0 f0).
Proof.
  unfold startup. destruct (get_current_location f0) as [loc out].
  intros i. cbn. repeat split; lia.
Qed.

Lemma at_most_once_step d s :
  at_most_once s -> at_most_once (process_detection db_ok d s).
Proof.
  intros Hs i. destruct (Hs i) as (Hout & Hdb & Hcsv).
  destruct (fires d s) eqn:Hf.
  - destruct (process_detection_counted db_ok d s Hf) as (-> & -> & -> & _).
    pose proof (fires_not_counted d s Hf) as Hnew.
    rewrite offered_for_app, rows_for_app. cbn [offered event_row vehicle_id].
    destruct (Z.eqb_spec (box_id d) i) as [<- | Hne].
    + destruct (proj1 (Hs (box_id d)) Hnew) as [-> ->].
      split; [| cbn; lia].
      intros Hin. exfalso. apply Hin, elem_of_union. left.
      apply elem_of_singleton. reflexivity.
    + rewrite !app_nil_r. split; [| split; assumption].
      intros Hin. apply Hout. intros Hc. apply Hin, elem_of_union. right. exact Hc.
  - destruct (process_detection_quiet db_ok d s Hf) as (-> & -> & -> & _).
    exact (Hs i).
Qed.

(** An id that is in [counted_ids] stays there, and its rows are final. *)
Lemma counted_is_final i s0 env m :
  i ∈ counted_ids s0 ->
  let s1 := fst (main_loop db_ok env s0 m) in
  i ∈ counted_ids s1 /\
  offered_for i (database s1) = offered_for i (database s0) /\
  rows_for i (csv_rows s1) = rows_for i (csv_rows s0).
Proof.
  intros Hin.
  apply (main_loop_preserves db_ok
           (fun s => i ∈ counted_ids s /\
                     offered_for i (database s) = offered_for i (database s0) /\
                     rows_for i (csv_rows s) = rows_for i (csv_rows s0))
           (fun _ => True)).
  - repeat split; intros; cbn; tauto.
  - trivial.
  - intros d s _ (Hc & Hdb & Hcsv).
    destruct (fires d s) eqn:Hf.
    + destruct (process_detection_counted db_ok d s Hf) as (-> & -> & -> & _).
      pose proof (fires_not_counted d s Hf) as Hnew.
      rewrite offered_for_app, rows_for_app. cbn [offered event_row vehicle_id].
      destruct (Z.eqb_spec (box_id d) i) as [E | _]; [congruence |].
      rewrite !app_nil_r. split; [| tauto].
      apply elem_of_union. right. exact Hc.
    + destruct (process_detection_quiet db_ok d s Hf) as (-> & -> & -> & _).
      tauto.
  - auto.
Qed.

Lemma program_at_most_once t0 f0 env n :
  at_most_once (fst (program db_ok t0 f0 env n)).
Proof.
  unfold program.
  apply (main_loop_preserves db_ok at_most_once (fun _ => True)).
  - apply at_most_once_housekeeping.
  - trivial.
  - intros d s _. apply at_most_once_step.
  - apply at_most_once_startup.
Qed.

(** C1: in every run, after any number of passes, the database has been
    offered at most one row carrying a given id, and so has the CSV file;
    and from any state in which an id is in [counted_ids], however the run
    continues, the id stays in [counted_ids] and no further row carrying it
    is produced. *)
Theorem at_most_once_emission (t0 : Q) (f0 : file_state)
    (env : nat -> tick) (n : nat) (i : Z) :
  (length (offered_for i (database (fst (program db_ok t0 f0 env n)))) <= 1)%nat /\
  (length (rows_for i (csv_rows (fst (program db_ok t0 f0 env n)))) <= 1)%nat /\
  forall s0 env' m,
    i ∈ counted_ids s0 ->
    i ∈ counted_ids (fst (main_loop db_ok env' s0 m)) /\
    offered_for i (database (fst (main_loop db_ok env' s0 m)))
    = offered_for i (database s0) /\
    rows_for i (csv_rows (fst (main_loop db_ok env' s0 m)))
    = rows_for i (csv_rows s0).
Proof.
  destruct (program_at_most_once t0 f0 env n i) as (_ & Hdb & Hcsv).
  split; [exact Hdb | split; [exact Hcsv |]].
  intros s0 env' m Hin. apply (counted_is_final i s0 env' m Hin).
Qed.

End AtMostOnce.

(** ** First sight *)

Section FirstSight.

Variable db_ok : nat -> bool.

(** A detection whose id has no entry in [object_memory] is not counted. *)
Lemma fresh_id_does_not_fire d s :
  object_memory s !! box_id d = None -> fires d s = false.
Proof.
  intros H. unfold fires. rewrite H. cbn [default].
  rewrite crossed_line_zero_length, andb_false_r. reflexivity.
Qed.

Lemma fresh_id_step i d s :
  box_id d <> i ->
  object_memory s !! i = None ->
  object_memory (process_detection db_ok d s) !! i = None.
Proof.
  intros Hne H.
  destruct (process_detection_frame db_ok d s) as (_ & _ & _ & ->).
  destruct (admitted d); [| exact H].
  rewrite lookup_insert_ne; [exact H | exact Hne].
Qed.

Lemma fresh_id_housekeeping i :
  housekeeping_stable (fun s => object_memory s !! i = None).
Proof.
  split; [| split; [| split]].
  - intros l s _ H. exact H.
  - intros v s H. exact H.
  - intros v s H. exact H.
  - intros v s H. exact H.
Qed.

(** An id that no earlier batch contained has no entry in [object_memory]. *)
Lemma unseen_id_is_fresh t0 f0 env n i :
  unseen_before env n i ->
  object_memory (fst (program db_ok t0 f0 env n)) !! i = None.
Proof.
  intros Hun. unfold program.
  apply (main_loop_preserves db_ok (fun s => object_memory s !! i = None)
           (fun d => box_id d <> i)).
  - apply fresh_id_housekeeping.
  - exact Hun.
  - intros d s. apply fresh_id_step.
  - unfold startup. destruct (get_current_location f0). reflexivity.
Qed.

(** C6: take any run, any pass [n] of it and a detection [d] whose id occurs
    in no batch of the earlier passes nor among the detections [pre] that
    precede it in the batch of pass [n].  When [d] is reached its id has no
    entry in [object_memory], the displacement handed to the crossing test
    is the zero-length segment from the centre to itself, the test answers
    [false], and processing [d] adds nothing to the database, to the CSV
    file, to [counted_ids] or to the counters; if [d] passes the filter its
    centre becomes the remembered position. *)
Theorem no_first_sight_crossing (t0 : Q) (f0 : file_state) (env : nat -> tick)
    (n : nat) (t : tick) (pre : list detection) (d : detection) :
  unseen_before env n (box_id d) ->
  (forall d', In d' pre -> box_id d' <> box_id d) ->
  let s := fst (program db_ok t0 f0 env n) in
  let s1 := process_frame db_ok pre
              (location_check t (set_frame_count (frame_count s + 1) s)) in
  let s2 := process_detection db_ok d s1 in
  object_memory s1 !! box_id d = None /\
  crossed_line (default (center d) (object_memory s1 !! box_id d)) (center d)
               LINE_START LINE_END = false /\
  database s2 = database s1 /\
  csv_rows s2 = csv_rows s1 /\
  counted_ids s2 = counted_ids s1 /\
  (count_cars s2, count_bikes s2, count_trucks s2)
  = (count_cars s1, count_bikes s1, count_trucks s1) /\
  (admitted d = true -> object_memory s2 !! box_id d = Some (center d)).
Proof.
  intros Hun Hpre s s1 s2.
  assert (Hfresh : object_memory s1 !! box_id d = None).
  { subst s1.
    apply (process_frame_preserves db_ok
             (fun s => object_memory s !! box_id d = None)
             (fun d' => box_id d' <> box_id d)).
    - exact Hpre.
    - intros d' s'. apply fresh_id_step.
    - apply location_check_preserves; [apply fresh_id_housekeeping |].
      apply (unseen_id_is_fresh t0 f0 env n (box_id d) Hun). }
  pose proof (fresh_id_does_not_fire d s1 Hfresh) as Hquiet.
  destruct (process_detection_quiet db_ok d s1 Hquiet)
    as (Hdb & Hcsv & Hids & _ & Hc & Hb & Ht).
  split; [exact Hfresh |].
  split; [rewrite Hfresh; apply crossed_line_zero_length |].
  subst s2. rewrite Hdb, Hcsv, Hids, Hc, Hb, Ht.
  repeat split.
  intros Ha. destruct (process_detection_frame db_ok d s1) as (_ & _ & _ & ->).
  rewrite Ha. apply lookup_insert_eq.
Qed.

End FirstSight.

(** ** The aggregate counters *)

Section Counters.

Variable db_ok : nat -> bool.

Lemma offered_of_type_app ty db a :
  offered_of_type ty (db ++ [a])
  = offered_of_type ty db
    + (if String.eqb (vehicle_type (offered a)) ty then 1 else 0).
Proof.
  unfold offered_of_type. rewrite List.filter_app, length_app. cbn.
  destruct (String.eqb _ _); cbn; lia.
Qed.

Lemma counters_match_step d s :
  counters_match s -> counters_match (process_detection db_ok d s).
Proof.
  intros (Hc & Hb & Ht & Hrec). unfold counters_match.
  destruct (fires d s) eqn:Hf.
  - destruct (process_detection_counted db_ok d s Hf) as (-> & _).
    destruct (process_detection_counters db_ok d s Hf) as (-> & -> & ->).
    pose proof (fires_admitted d s Hf) as Ha.
    unfold admitted in Ha. apply andb_prop in Ha as [Hr _].
    rewrite !offered_of_type_app. cbn [offered event_row vehicle_type].
    rewrite (map_vehicle_class_recognized _ Hr), Hc, Hb, Ht.
    repeat split.
    intros a Hin. apply in_app_or in Hin as [Hin | [<- | []]]; [auto |].
    cbn. rewrite (map_vehicle_class_recognized _ Hr). exact Hr.
  - destruct (process_detection_quiet db_ok d s Hf)
      as (-> & _ & _ & _ & -> & -> & ->).
    repeat split; assumption.
Qed.

Lemma counters_match_housekeeping : housekeeping_stable counters_match.
Proof.
  split; [| split; [| split]].
  - intros l s _ H. exact H.
  - intros v s H. exact H.
  - intros v s H. exact H.
  - intros v s H. exact H.
Qed.

Lemma counters_le_step s0 d s :
  counters_le s0 s -> counters_le s0 (process_detection db_ok d s).
Proof.
  unfold counters_le. intros (Hc & Hb & Ht).
  destruct (fires d s) eqn:Hf.
  - destruct (process_detection_counters db_ok d s Hf) as (-> & -> & ->).
    repeat destruct (String.eqb _ _); lia.
  - destruct (process_detection_quiet db_ok d s Hf)
      as (_ & _ & _ & _ & -> & -> & ->).
    auto.
Qed.

Lemma counters_le_housekeeping s0 : housekeeping_stable (counters_le s0).
Proof.
  split; [| split; [| split]].
  - intros l s _ H. exact H.
  - intros v s H. exact H.
  - intros v s H. exact H.
  - intros v s H. exact H.
Qed.

Lemma counters_monotone env s0 n k :
  counters_le (fst (main_loop db_ok env s0 n))
              (fst (main_loop db_ok env s0 (n + k))).
Proof.
  induction k as [| k IH].
  - rewrite Nat.add_0_r. unfold counters_le. lia.
  - rewrite Nat.add_succ_r, main_loop_succ.
    destruct (snd (main_loop db_ok env s0 (n + k))); [| exact IH].
    apply (iteration_preserves db_ok _ (fun _ => True));
      [apply counters_le_housekeeping | trivial | | exact IH].
    intros d s _. apply counters_le_step.
Qed.

(** C4, counterexample: a bus goes through the gate.  A row of type "bus"
    is offered to the database and no counter moves. *)
Lemma bus_event_counts_nothing :
  let s := process_frame always_ok [see 4 "bus" 300 200 (9 # 10)] blank in
  let s' := process_detection always_ok (see 4 "bus" 300 100 (9 # 10)) s in
  recognized "bus" = true /\
  database s' = (database s ++ [Insert (Row "bus" 4 "Basni Crossing") true])%list /\
  (count_cars s', count_bikes s', count_trucks s')
  = (count_cars s, count_bikes s, count_trucks s).
Proof. vm_compute. repeat split. Qed.

(** C4, amended: in every run the counters for cars, bikes and trucks equal
    the numbers of rows of type "car", "motorcycle" and "truck" offered to
    the database so far, every row has one of the four recognized types, and
    no counter ever decreases.  A counted detection adds one to the counter
    of its label when the label is "car", "motorcycle" or "truck" and leaves
    the other counters alone; a counted "bus" moves no counter. *)
Theorem counters_track_events (t0 : Q) (f0 : file_state)
    (env : nat -> tick) (n : nat) :
  let s := fst (program db_ok t0 f0 env n) in
  counters_match s /\
  (forall k, counters_le s (fst (program db_ok t0 f0 env (n + k)))) /\
  (forall d s0, fires d s0 = true ->
     vehicle_type (event_row d s0) = label d /\
     count_cars (process_detection db_ok d s0)
     = count_cars s0 + (if String.eqb (label d) "car" then 1 else 0) /\
     count_bikes (process_detection db_ok d s0)
     = count_bikes s0 + (if String.eqb (label d) "motorcycle" then 1 else 0) /\
     count_trucks (process_detection db_ok d s0)
     = count_trucks s0 + (if String.eqb (label d) "truck" then 1 else 0)).
Proof.
  cbv zeta. split; [| split].
  - unfold program.
    apply (main_loop_preserves db_ok counters_match (fun _ => True)).
    + apply counters_match_housekeeping.
    + trivial.
    + intros d s _. apply counters_match_step.
    + unfold startup. destruct (get_current_location f0).
      repeat split. intros a [].
  - intros k. apply counters_monotone.
  - intros d s0 Hf. split; [| apply (process_detection_counters db_ok d s0 Hf)].
    pose proof (fires_admitted d s0 Hf) as Ha.
    unfold admitted in Ha. apply andb_prop in Ha as [Hr _].
    apply (map_vehicle_class_recognized _ Hr).
Qed.

End Counters.

(** ** Failure of the event sink *)

Section SinkFailure.

Variables db_ok db_ok' : nat -> bool.








End SinkFailure.

Section SinkPolicy.

Variable db_ok : nat -> bool.






End SinkPolicy.

(** ** End of stream *)

Section Restart.

Variable db_ok : nat -> bool.

Lemma iteration_no_frame t s :
  cap_read t = false ->
  iteration db_ok t s = (print VideoEndedRestarting s, true).
Proof. intros H. unfold iteration. rewrite H. reflexivity. Qed.

Lemma print_repeat l k s :
  print l (fold_left (fun s l => print l s) (repeat l k) s)
  = fold_left (fun s l => print l s) (repeat l (S k)) s.
Proof.
  revert s. induction k as [| k IH]; intros s; [reflexivity |].
  cbn [repeat fold_left] in *. rewrite IH. reflexivity.
Qed.

(** With no frame to read, each pass prints one line and goes round. *)
Lemma main_loop_exhausted env s0 n :
  exhausted env ->
  main_loop db_ok env s0 n
  = (fold_left (fun s l => print l s) (repeat VideoEndedRestarting n) s0, true).
Proof.
  intros H. induction n as [| k IH]; [reflexivity |].
  rewrite main_loop_succ, IH. cbn [fst snd].
  rewrite (iteration_no_frame _ _ (H k)), print_repeat. reflexivity.
Qed.

(** C8, amended: when the frame source reports end of stream the loop prints
    "Video ended, restarting...", rewinds the source and reads again; if the
    source never yields a frame again the loop keeps doing so for ever: after
    any number of passes it is still running, no frame has been counted and
    nothing has changed but the console, which has one more line per pass. *)
Theorem restart_failure_spins (env : nat -> tick) (s0 : state) (n : nat) :
  exhausted env ->
  snd (main_loop db_ok env s0 n) = true /\
  view (fst (main_loop db_ok env s0 n)) = view s0 /\
  database (fst (main_loop db_ok env s0 n)) = database s0 /\
  console (fst (main_loop db_ok env s0 n))
  = (console s0 ++ repeat VideoEndedRestarting n)%list.
Proof.
  intros H. rewrite (main_loop_exhausted env s0 n H). cbn [fst snd].
  split; [reflexivity |].
  generalize (repeat VideoEndedRestarting n) as out.
  intros out. revert s0. induction out as [| l out IH]; intros s0; cbn [fold_left].
  - rewrite app_nil_r. repeat split.
  - destruct (IH (print l s0)) as (Hv & Hd & Hc).
    rewrite Hv, Hd, Hc. cbn. rewrite <- app_assoc. repeat split.
Qed.

End Restart.

(** C8, counterexample: the frame source yields no frame, ever, and the loop
    is never left. *)
Lemma restart_failure_counterexample :
  exhausted dead_source /\ ~ stops always_ok dead_source blank.
Proof.
  assert (H : exhausted dead_source) by (intros k; reflexivity).
  split; [exact H |].
  intros [n Hn]. rewrite (main_loop_exhausted always_ok dead_source blank n H) in Hn.
  discriminate Hn.
Qed.

(** ** The confidence filter *)

(** C5: a car seen with confidence 0.28125, which does not exceed the
    configured threshold of 0.3, passes the filter of the loop, which
    compares against 0.25: its position is remembered, and when it goes
    through the gate at that confidence it is counted. *)
Lemma confidence_threshold_not_applied :
  let d1 := see 7 "car" 300 200 (9 # 32) in
  let d2 := see 7 "car" 300 100 (9 # 32) in
  (conf d1 <= CONFIDENCE_THRESHOLD)%Q /\
  admitted_as_specified d1 = false /\
  admitted d1 = true /\
  object_memory (process_detection always_ok d1 blank) !! 7 = Some (300, 200) /\
  database (process_frame always_ok [d1; d2] blank)
  = [Insert (Row "car" 7 "Basni Crossing") true].
Proof.
  cbv zeta. split; [| split; [| split; [| split]]].
  - unfold Qle. cbn. lia.
  - reflexivity.
  - reflexivity.
  - vm_compute. reflexivity.
  - vm_compute. reflexivity.
Qed.

(** ** The properties at concrete inputs *)

Lemma at_most_once_emission_witness :
  let s0 := fst (program always_ok 0 Missing there_and_back 6) in
  let rest := fun k => there_and_back (6 + k) in
  7 ∈ counted_ids s0 /\
  (length (offered_for 7
     (database (fst (program always_ok 0 Missing there_and_back 9)))) <= 1)%nat /\
  7 ∈ counted_ids (fst (main_loop always_ok rest s0 3)) /\
  offered_for 7 (database (fst (main_loop always_ok rest s0 3)))
  = offered_for 7 (database s0).
Proof.
  intros s0 rest.
  assert (Hin : 7 ∈ counted_ids s0).
  { apply (bool_decide_unpack _). vm_compute. exact I. }
  destruct (at_most_once_emission always_ok 0 Missing there_and_back 9 7)
    as (Hdb & _ & Hfinal).
  destruct (Hfinal s0 rest 3%nat Hin) as (H1 & H2 & _).
  split; [exact Hin | split; [exact Hdb | split; [exact H1 | exact H2]]].
Defined.

Lemma no_first_sight_crossing_witness :
  let d := see 9 "truck" 400 115 (9 # 10) in
  let pre := [see 7 "car" 300 100 (9 # 10)] in
  let s := fst (program always_ok 0 Missing there_and_back 5) in
  let s1 := process_frame always_ok pre
              (location_check (there_and_back 5)
                 (set_frame_count (frame_count s + 1) s)) in
  let s2 := process_detection always_ok d s1 in
  unseen_before there_and_back 5 9 /\
  (forall d', In d' pre -> box_id d' <> 9) /\
  database s2 = database s1 /\
  counted_ids s2 = counted_ids s1 /\
  object_memory s2 !! 9 = Some (400, 115).
Proof.
  intros d pre s s1 s2.
  assert (Hun : unseen_before there_and_back 5 (box_id d)).
  { intros k ds d' Hk.
    destruct k as [| [| [| [| [| k]]]]]; try lia; cbn;
      intros [= <-]; cbn; intros Hin; intuition (subst; discriminate). }
  assert (Hpre : forall d', In d' pre -> box_id d' <> box_id d).
  { cbn. intros d' [<- | []]. discriminate. }
  destruct (no_first_sight_crossing always_ok 0 Missing there_and_back 5
              (there_and_back 5) pre d Hun Hpre)
    as (_ & _ & Hdb & _ & Hids & _ & Hmem).
  split; [exact Hun | split; [exact Hpre |]].
  split; [exact Hdb | split; [exact Hids |]].
  apply Hmem. reflexivity.
Defined.

Lemma counters_track_events_witness :
  let s0 := fst (program always_ok 0 Missing there_and_back 3) in
  let d := see 7 "car" 300 100 (9 # 10) in
  fires d s0 = true /\
  count_cars (process_detection always_ok d s0) = count_cars s0 + 1 /\
  count_cars (fst (program always_ok 0 Missing there_and_back 9))
  = offered_of_type "car"
      (database (fst (program always_ok 0 Missing there_and_back 9))).
Proof.
  intros s0 d.
  assert (Hf : fires d s0 = true) by (vm_compute; reflexivity).
  destruct (counters_track_events always_ok 0 Missing there_and_back 9)
    as ((Hcars & _) & _ & Hstep).
  destruct (Hstep d s0 Hf) as (_ & Hc & _).
  split; [exact Hf | split; [exact Hc | exact Hcars]].
Defined.


Lemma restart_failure_spins_witness :
  exhausted dead_source /\
  snd (main_loop always_ok dead_source blank 5) = true /\
  console (fst (main_loop always_ok dead_source blank 5))
  = (console blank ++ repeat VideoEndedRestarting 5)%list.
Proof.
  assert (H : exhausted dead_source) by (intros k; reflexivity).
  destruct (restart_failure_spins always_ok dead_source blank 5 H)
    as (Hrun & _ & _ & Hout).
  split; [exact H | split; [exact Hrun | exact Hout]].
Defined.

(** ** The four scenarios of the specification *)

(** Scenario 1: object 7 seen at (90,190), then at (110,170). *)
Example scenario_gate_crossed :
  let s := process_frame always_ok
             [see 7 "car" 90 190 (9 # 10); see 7 "car" 110 170 (9 # 10)] blank in
  crossed LINE_START LINE_END (90, 190) (110, 170) = true /\
  database s = [Insert (Row "car" 7 "Basni Crossing") true] /\
  (count_cars s, count_bikes s, count_trucks s) = (1, 0, 0).
Proof. vm_compute. repeat split. Qed.

(** Scenario 2: object 7, already counted, goes back through the gate. *)
Example scenario_second_crossing :
  let s6 := fst (program always_ok 0 Missing there_and_back 6) in
  let s9 := fst (program always_ok 0 Missing there_and_back 9) in
  crossed LINE_START LINE_END (300, 100) (300, 200) = true /\
  database s9 = database s6 /\
  database s9 = [Insert (Row "car" 7 "Basni Crossing") true] /\
  object_memory s6 !! 7 = Some (300, 100) /\
  object_memory s9 !! 7 = Some (300, 200).
Proof. vm_compute. repeat split. Qed.

(** Scenario 3: object 9 first seen at (500,500). *)
Example scenario_first_sight :
  let s := process_detection always_ok (see 9 "truck" 500 500 (9 # 10)) blank in
  database s = [] /\ object_memory s !! 9 = Some (500, 500).
Proof. vm_compute. repeat split. Qed.

(** Scenario 4: the insert fails for a crossing that is otherwise valid. *)
Example scenario_sink_failure :
  let s9 := fst (program never_ok 0 Missing there_and_back 9) in
  snd (program never_ok 0 Missing there_and_back 9) = true /\
  database s9 = [Insert (Row "car" 7 "Basni Crossing") false] /\
  csv_rows s9 = [Row "car" 7 "Basni Crossing"] /\
  bool_decide (7 ∈ counted_ids s9) = true /\
  insert_errors_printed (console s9) = 1%nat.
Proof. vm_compute. repeat split. Qed.

(** * Further properties *)

(** ** The crossing detector and the geometry it decides *)

Section CrossingGeometry.

Implicit Types A B C S E P Q : point.

Lemma ccw_cycle A B C : ccw A B C = ccw B C A.
Proof. apply eq_true_iff_eq. rewrite !ccw_spec, (cross_cycle A B C). tauto. Qed.

(** X3: the test treats the two segments alike: exchanging the roles of the
    gate and of the displacement never changes the answer. *)
Theorem crossed_line_roles (prev curr line_start line_end : point) :
  crossed_line line_start line_end prev curr
  = crossed_line prev curr line_start line_end.
Proof.
  unfold crossed_line.
  rewrite (ccw_cycle prev line_start line_end), (ccw_cycle curr line_start line_end).
  rewrite <- (ccw_cycle line_start prev curr), <- (ccw_cycle line_end prev curr).
  apply andb_comm.
Qed.

(** Two integers, one positive and one not: the line between them meets
    zero at a parameter between 0 and 1. *)
Lemma weakly_opposite_meet (a b : Z) :
  (0 < a /\ b <= 0) \/ (a <= 0 /\ 0 < b) ->
  exists t : Q,
    (0 <= t)%Q /\ (t <= 1)%Q /\
    (inject_Z a + t * (inject_Z b - inject_Z a) == 0)%Q.
Proof.
  intros H.
  assert (HA : (0 < inject_Z a /\ inject_Z b <= 0)%Q \/
               (inject_Z a <= 0 /\ 0 < inject_Z b)%Q).
  { destruct H as [[Ha Hb] | [Ha Hb]]; [left | right]; split.
    - rewrite Zlt_Qlt in Ha. exact Ha.
    - rewrite Zle_Qle in Hb. exact Hb.
    - rewrite Zle_Qle in Ha. exact Ha.
    - rewrite Zlt_Qlt in Hb. exact Hb. }
  clear H. set (a' := inject_Z a) in *. set (b' := inject_Z b) in *.
  destruct HA as [[Ha Hb] | [Ha Hb]].
  - exists (a' / (a' - b'))%Q. split; [| split].
    + apply Qle_shift_div_l; lra.
    + apply Qle_shift_div_r; lra.
    + field. lra.
  - exists ((- a') / (b' - a'))%Q. split; [| split].
    + apply Qle_shift_div_l; lra.
    + apply Qle_shift_div_r; lra.
    + field. lra.
Qed.

Lemma xorb_ccw_opposite A B C A' B' C' :
  xorb (ccw A B C) (ccw A' B' C') = true ->
  (0 < cross A B C /\ cross A' B' C' <= 0) \/
  (cross A B C <= 0 /\ 0 < cross A' B' C').
Proof.
  destruct (ccw A B C) eqn:H1; destruct (ccw A' B' C') eqn:H2;
    try discriminate; intros _.
  - left. split; [apply ccw_spec, H1 | apply ccw_false_spec, H2].
  - right. split; [apply ccw_false_spec, H1 | apply ccw_spec, H2].
Qed.

End CrossingGeometry.

(** Move [inject_Z] down to the coordinates. *)
Ltac push_inject :=
  unfold Z.sub in *;
  repeat (rewrite inject_Z_plus in * || rewrite inject_Z_mult in *
          || rewrite inject_Z_opp in *).

(** Name the eight injected coordinates and forget where they came from. *)
Ltac name_coordinates px py qx qy sx sy ex ey :=
  set (PX := inject_Z px) in *; set (PY := inject_Z py) in *;
  set (QX := inject_Z qx) in *; set (QY := inject_Z qy) in *;
  set (SX := inject_Z sx) in *; set (SY := inject_Z sy) in *;
  set (EX := inject_Z ex) in *; set (EY := inject_Z ey) in *;
  clearbody PX PY QX QY SX SY EX EY.

(** Close [l == r] when [l - r] is a combination of [dX] and [dY], both
    known to be zero, with multipliers [m1] and [m2] up to sign. *)
Ltac by_combination dX dY HX HY m1 m2 :=
  match goal with
  | |- (?l == ?r)%Q =>
      first [ transitivity (r + (m1 * dY - m2 * dX))%Q; [ring |]
            | transitivity (r - (m1 * dY - m2 * dX))%Q; [ring |]
            | transitivity (r + (m1 * dY + m2 * dX))%Q; [ring |]
            | transitivity (r - (m1 * dY + m2 * dX))%Q; [ring |] ];
      rewrite HX, HY; ring
  end.

(** Where the test answers [True] the two segments meet. *)
Lemma crossed_line_meets (prev curr line_start line_end : point) :
  crossed_line prev curr line_start line_end = true ->
  exists X, on_segment line_start line_end X /\ on_segment prev curr X.
Proof.
  unfold crossed_line. intros H. apply andb_prop in H as [H1 H2].
  apply xorb_ccw_opposite in H1, H2.
  destruct (weakly_opposite_meet _ _ H1) as (u & Hu0 & Hu1 & Hu).
  destruct (weakly_opposite_meet _ _ H2) as (t & Ht0 & Ht1 & Ht).
  assert (HN : ~ (inject_Z (cross line_start line_end curr)
                  - inject_Z (cross line_start line_end prev) == 0)%Q).
  { rewrite !Zlt_Qlt, !Zle_Qle in H2. change (inject_Z 0) with 0%Q in H2. lra. }
  clear H1 H2.
  destruct prev as [px py], curr as [qx qy],
           line_start as [sx sy], line_end as [ex ey].
  exists (inject_Z px + t * (inject_Z qx - inject_Z px),
          inject_Z py + t * (inject_Z qy - inject_Z py))%Q.
  split; [| exists t; cbn [fst snd]; repeat split; (assumption || reflexivity)].
  exists u. cbn [fst snd]. split; [exact Hu0 | split; [exact Hu1 |]].
  unfold cross in *. cbn [fst snd] in *. push_inject.
  name_coordinates px py qx qy sx sy ex ey.
  match type of HN with ~ (?n == 0)%Q => set (N := n) in * end.
  match type of Ht with (?e == 0)%Q => set (E1 := e) in * end.
  match type of Hu with (?e == 0)%Q => set (E2 := e) in * end.
  assert (HX : (N * ((PX + t * (QX - PX)) - (SX + u * (EX - SX))) == 0)%Q).
  { transitivity ((QX - PX) * E1 + (EX - SX) * E2)%Q; [subst E1 E2 N; ring |].
    rewrite Ht, Hu. ring. }
  assert (HY : (N * ((PY + t * (QY - PY)) - (SY + u * (EY - SY))) == 0)%Q).
  { transitivity ((QY - PY) * E1 + (EY - SY) * E2)%Q; [subst E1 E2 N; ring |].
    rewrite Ht, Hu. ring. }
  apply Qmult_integral in HX, HY.
  destruct HX as [HX | HX]; [contradiction |].
  destruct HY as [HY | HY]; [contradiction |].
  split; lra.
Qed.

(** X1: a positive answer is never spurious: when [crossed_line] answers
    [True] the gate and the displacement have a point in common. *)
Theorem crossed_line_sound (prev curr line_start line_end : point) :
  crossed_line prev curr line_start line_end = true ->
  exists X, on_segment line_start line_end X /\ on_segment prev curr X.
Proof. apply crossed_line_meets. Qed.

Lemma crossed_line_sound_witness :
  crossed_line (300, 200) (300, 100) LINE_START LINE_END = true /\
  exists X, on_segment LINE_START LINE_END X /\ on_segment (300, 200) (300, 100) X.
Proof.
  assert (H : crossed_line (300, 200) (300, 100) LINE_START LINE_END = true)
    by reflexivity.
  exact (conj H (crossed_line_sound _ _ _ _ H)).
Defined.

Lemma strict_signs (t n a b : Q) :
  (0 < t)%Q -> (t < 1)%Q -> ~ (n == 0)%Q ->
  (a == - t * n)%Q -> (b == (1 - t) * n)%Q ->
  (0 < a /\ b < 0)%Q \/ (a < 0 /\ 0 < b)%Q.
Proof.
  intros Ht0 Ht1 Hn Ha Hb.
  destruct (Q_dec n 0) as [[Hneg | Hpos] | Hz]; [| | contradiction].
  - left. split; nra.
  - right. split; nra.
Qed.

(** X2: no proper crossing is missed: when the gate and the displacement
    are not parallel and meet in a point that is an end point of neither,
    [crossed_line] answers [True]. *)
Theorem crossed_line_complete
    (prev curr line_start line_end : point) (X : qpoint) :
  strictly_inside line_start line_end X ->
  strictly_inside prev curr X ->
  ~ parallel line_start line_end prev curr ->
  crossed_line prev curr line_start line_end = true.
Proof.
  intros (u & Hu0 & Hu1 & HuX & HuY) (t & Ht0 & Ht1 & HtX & HtY) Hpar.
  destruct prev as [px py], curr as [qx qy],
           line_start as [sx sy], line_end as [ex ey].
  destruct X as [x y]. unfold parallel in Hpar. cbn [fst snd] in *.
  rewrite HuX in HtX. rewrite HuY in HtY. clear HuX HuY x y.
  assert (HN : ~ (inject_Z ((qy - py) * (ex - sx) - (ey - sy) * (qx - px)) == 0)%Q).
  { intros H. apply Hpar. exact (proj1 (inject_Z_injective _ 0) H). }
  assert (HN' : ~ (- inject_Z ((qy - py) * (ex - sx) - (ey - sy) * (qx - px)) == 0)%Q)
    by lra.
  assert (Hsigns :
    ((0 < inject_Z (cross (sx, sy) (ex, ey) (px, py)) /\
      inject_Z (cross (sx, sy) (ex, ey) (qx, qy)) < 0)%Q \/
     (inject_Z (cross (sx, sy) (ex, ey) (px, py)) < 0 /\
      0 < inject_Z (cross (sx, sy) (ex, ey) (qx, qy)))%Q) /\
    ((0 < inject_Z (cross (sx, sy) (px, py) (qx, qy)) /\
      inject_Z (cross (ex, ey) (px, py) (qx, qy)) < 0)%Q \/
     (inject_Z (cross (sx, sy) (px, py) (qx, qy)) < 0 /\
      0 < inject_Z (cross (ex, ey) (px, py) (qx, qy)))%Q)).
  { split;
      [apply (strict_signs t _ _ _ Ht0 Ht1 HN)
      | apply (strict_signs u _ _ _ Hu0 Hu1 HN')];
      unfold cross; cbn [fst snd]; push_inject;
      name_coordinates px py qx qy sx sy ex ey;
      assert (HX : (PX + t * (QX - PX) - (SX + u * (EX - SX)) == 0)%Q) by lra;
      assert (HY : (PY + t * (QY - PY) - (SY + u * (EY - SY)) == 0)%Q) by lra;
      first [ by_combination (PX + t * (QX - PX) - (SX + u * (EX - SX)))%Q
                             (PY + t * (QY - PY) - (SY + u * (EY - SY)))%Q
                             HX HY (EX - SX)%Q (EY - SY)%Q
            | by_combination (PX + t * (QX - PX) - (SX + u * (EX - SX)))%Q
                             (PY + t * (QY - PY) - (SY + u * (EY - SY)))%Q
                             HX HY (QX - PX)%Q (QY - PY)%Q ]. }
  destruct Hsigns as [Hgate Hpath].
  change 0%Q with (inject_Z 0) in Hgate, Hpath.
  rewrite <- !Zlt_Qlt in Hgate, Hpath.
  unfold crossed_line. apply andb_true_intro. split.
  - destruct Hpath as [[H1 H2] | [H1 H2]].
    + apply ccw_spec in H1.
      assert (H3 : ccw (ex, ey) (px, py) (qx, qy) = false)
        by (apply ccw_false_spec; lia).
      rewrite H1, H3. reflexivity.
    + apply ccw_spec in H2.
      assert (H3 : ccw (sx, sy) (px, py) (qx, qy) = false)
        by (apply ccw_false_spec; lia).
      rewrite H2, H3. reflexivity.
  - destruct Hgate as [[H1 H2] | [H1 H2]].
    + apply ccw_spec in H1.
      assert (H3 : ccw (sx, sy) (ex, ey) (qx, qy) = false)
        by (apply ccw_false_spec; lia).
      rewrite H1, H3. reflexivity.
    + apply ccw_spec in H2.
      assert (H3 : ccw (sx, sy) (ex, ey) (px, py) = false)
        by (apply ccw_false_spec; lia).
      rewrite H2, H3. reflexivity.
Qed.

Lemma crossed_line_complete_witness :
  let X : qpoint := (300, 410 # 3)%Q in
  strictly_inside LINE_START LINE_END X /\
  strictly_inside (300, 200) (300, 100) X /\
  ~ parallel LINE_START LINE_END (300, 200) (300, 100) /\
  crossed_line (300, 200) (300, 100) LINE_START LINE_END = true.
Proof.
  intros X.
  assert (H1 : strictly_inside LINE_START LINE_END X).
  { exists (1 # 3)%Q. unfold X, LINE_START, LINE_END, inject_Z. cbn [fst snd].
    repeat split; lra. }
  assert (H2 : strictly_inside (300, 200) (300, 100) X).
  { exists (19 # 30)%Q. unfold X, inject_Z. cbn [fst snd]. repeat split; lra. }
  assert (H3 : ~ parallel LINE_START LINE_END (300, 200) (300, 100)).
  { unfold parallel. vm_compute. intros H. discriminate H. }
  exact (conj H1 (conj H2 (conj H3
           (crossed_line_complete _ _ _ _ X H1 H2 H3)))).
Defined.

(** ** One frame's batch *)

Section Batch.

Variable db_ok : nat -> bool.

(** The rows one batch adds: appended to both traces, in the order of the
    batch, all stamped with the location held when the batch started. *)
Lemma process_frame_rows ds s :
  exists new : list insert,
    database (process_frame db_ok ds s) = (database s ++ new)%list /\
    csv_rows (process_frame db_ok ds s)
    = (csv_rows s ++ List.map offered new)%list /\
    offered_ids new `sublist_of` List.map box_id ds /\
    Forall (fun a => location_id (offered a) = current_location s) new /\
    current_location (process_frame db_ok ds s) = current_location s.
Proof.
  revert s. induction ds as [| d ds IH]; intros s.
  - exists []. cbn. rewrite !app_nil_r. repeat split; constructor.
  - change (process_frame db_ok (d :: ds) s)
      with (process_frame db_ok ds (process_detection db_ok d s)).
    destruct (IH (process_detection db_ok d s))
      as (new & Hdb & Hcsv & Hsub & Hloc & Hcur).
    destruct (process_detection_frame db_ok d s) as (Hl & _).
    rewrite Hl in Hloc, Hcur.
    destruct (fires d s) eqn:Hf.
    + destruct (process_detection_counted db_ok d s Hf) as (Hd1 & Hc1 & _).
      exists (Insert (event_row d s) (db_ok (length (database s))) :: new).
      rewrite Hdb, Hcsv, Hd1, Hc1, <- !app_assoc. cbn.
      repeat split; try assumption.
      * apply sublist_skip, Hsub.
      * constructor; [reflexivity | exact Hloc].
    + destruct (process_detection_quiet db_ok d s Hf) as (Hd1 & Hc1 & _).
      exists new. rewrite Hdb, Hcsv, Hd1, Hc1. cbn.
      repeat split; try assumption.
      apply sublist_cons, Hsub.
Qed.

(** X4: within one batch events are recorded in detection order: the rows a
    batch adds to the database come after all earlier rows, and their ids,
    read in the order of the rows, are picked from the ids of the batch
    without changing their order. *)
Theorem batch_order_preserved (ds : list detection) (s : state) :
  exists new : list insert,
    database (process_frame db_ok ds s) = (database s ++ new)%list /\
    offered_ids new `sublist_of` List.map box_id ds.
Proof.
  destruct (process_frame_rows ds s) as (new & Hdb & _ & Hsub & _).
  exists new. split; assumption.
Qed.

Lemma location_check_outputs t s :
  database (location_check t s) = database s /\
  csv_rows (location_check t s) = csv_rows s /\
  counted_ids (location_check t s) = counted_ids s /\
  object_memory (location_check t s) = object_memory s.
Proof.
  apply (location_check_preserves
           (fun s' => database s' = database s /\ csv_rows s' = csv_rows s /\
                      counted_ids s' = counted_ids s /\
                      object_memory s' = object_memory s)).
  - split; [| split; [| split]].
    + intros l s' _ H. exact H.
    + intros v s' H. exact H.
    + intros v s' H. exact H.
    + intros v s' H. exact H.
  - repeat split.
Qed.

(** X5: all the rows one pass of the loop adds carry the same location,
    namely the one held at the end of that pass. *)
Theorem pass_location_snapshot (t : tick) (s : state) :
  exists new : list insert,
    database (fst (iteration db_ok t s)) = (database s ++ new)%list /\
    Forall (fun a => location_id (offered a)
                     = current_location (fst (iteration db_ok t s))) new.
Proof.
  unfold iteration.
  destruct (negb (cap_read t)); cbn [fst].
  { exists []. cbn. rewrite app_nil_r. split; constructor. }
  destruct (negb _); cbn [fst].
  { exists []. cbn. rewrite app_nil_r. split; constructor. }
  set (s1 := location_check t (set_frame_count (frame_count s + 1) s)).
  assert (Hdb : database s1 = database s).
  { subst s1. destruct (location_check_outputs t
                          (set_frame_count (frame_count s + 1) s)) as (-> & _).
    reflexivity. }
  destruct (tracked t) as [ds |].
  - destruct (process_frame_rows ds s1) as (new & Hd & _ & _ & Hloc & Hcur).
    exists new. rewrite Hd, Hdb, Hcur. split; [reflexivity | exact Hloc].
  - exists []. rewrite app_nil_r. split; [exact Hdb | constructor].
Qed.

(** The position memory after a batch. *)
Lemma last_seen_cons i d ds :
  last_seen i (d :: ds)
  = match last_seen i ds with
    | Some c => Some c
    | None => if admitted d && (box_id d =? i) then Some (center d) else None
    end.
Proof.
  unfold last_seen. cbn [List.filter].
  destruct (admitted d && (box_id d =? i)).
  - rewrite last_cons. destruct (last _); reflexivity.
  - destruct (last _); reflexivity.
Qed.

(** X8: after a batch the position remembered for an object is the centre
    of its last detection in the batch that passed the filter, whether or
    not it was counted; an object with no such detection keeps the position
    it had. *)
Theorem memory_holds_last_position (ds : list detection) (s : state) (i : Z) :
  object_memory (process_frame db_ok ds s) !! i
  = match last_seen i ds with
    | Some c => Some c
    | None => object_memory s !! i
    end.
Proof.
  revert s. induction ds as [| d ds IH]; intros s; [reflexivity |].
  change (process_frame db_ok (d :: ds) s)
    with (process_frame db_ok ds (process_detection db_ok d s)).
  rewrite IH, last_seen_cons.
  destruct (last_seen i ds); [reflexivity |].
  destruct (process_detection_frame db_ok d s) as (_ & _ & _ & ->).
  destruct (admitted d); cbn [andb]; [| reflexivity].
  destruct (Z.eqb_spec (box_id d) i) as [-> | Hne].
  - apply lookup_insert_eq.
  - apply lookup_insert_ne, Hne.
Qed.

End Batch.

(** ** Whole runs *)

Section Run.

Variable db_ok : nat -> bool.

Lemma startup_outputs t0 f0 :
  database (startup t0 f0) = [] /\ csv_rows (startup t0 f0) = [] /\
  counted_ids (startup t0 f0) = ∅ /\ object_memory (startup t0 f0) = ∅ /\
  frame_count (startup t0 f0) = 0 /\
  current_location (startup t0 f0) = fst (get_current_location f0).
Proof.
  unfold startup. destruct (get_current_location f0). repeat split.
Qed.


(** X7: the ids in [counted_ids] are exactly the ids recorded: in every run
    an id is in [counted_ids] if and only if a row carrying it has been
    offered to the database, no id occurs in two rows, and the number of
    rows is the size of [counted_ids]. *)
Theorem counted_ids_are_recorded_ids (t0 : Q) (f0 : file_state)
    (env : nat -> tick) (n : nat) :
  let s := fst (program db_ok t0 f0 env n) in
  (forall i, i ∈ counted_ids s <-> i ∈ offered_ids (database s)) /\
  NoDup (offered_ids (database s)) /\
  size (counted_ids s) = length (database s).
Proof.
  cbv zeta.
  assert (H : counted_ids (fst (program db_ok t0 f0 env n))
              = list_to_set (offered_ids (database (fst (program db_ok t0 f0 env n))))
              /\ NoDup (offered_ids (database (fst (program db_ok t0 f0 env n))))).
  { unfold program.
    apply (main_loop_preserves db_ok
             (fun s => counted_ids s = list_to_set (offered_ids (database s)) /\
                       NoDup (offered_ids (database s))) (fun _ => True)).
    - split; [| split; [| split]].
      + intros l s _ H. exact H.
      + intros v s H. exact H.
      + intros v s H. exact H.
      + intros v s H. exact H.
    - trivial.
    - intros d s _ [Hset Hnd]. destruct (fires d s) eqn:Hf.
      + pose proof (fires_not_counted d s Hf) as Hnew.
        destruct (process_detection_counted db_ok d s Hf) as (-> & _ & -> & _).
        unfold offered_ids in *. rewrite List.map_app. cbn [List.map offered event_row vehicle_id].
        split.
        * rewrite list_to_set_app_L, <- Hset. cbn.
          rewrite union_empty_r_L. apply union_comm_L.
        * apply NoDup_app. split; [exact Hnd |]. split; [| apply NoDup_singleton].
          intros x Hx Hx'. apply list_elem_of_singleton in Hx'. subst x.
          apply Hnew. rewrite Hset. apply elem_of_list_to_set. exact Hx.
      + destruct (process_detection_quiet db_ok d s Hf) as (-> & _ & -> & _).
        split; assumption.
    - destruct (startup_outputs t0 f0) as (-> & _ & -> & _).
      split; [reflexivity | constructor]. }
  destruct H as [Hset Hnd].
  split; [| split; [exact Hnd |]].
  - intros i. rewrite Hset. apply elem_of_list_to_set.
  - rewrite Hset, size_list_to_set by exact Hnd.
    unfold offered_ids. apply length_map.
Qed.

Lemma growth_step s0 d s :
  grown s0 s -> grown s0 (process_detection db_ok d s).
Proof.
  unfold grown. intros [Hc Hm].
  destruct (process_detection_frame db_ok d s) as (_ & _ & _ & ->).
  split.
  - destruct (fires d s) eqn:Hf.
    + destruct (process_detection_counted db_ok d s Hf) as (_ & _ & -> & _).
      etransitivity; [exact Hc | apply union_subseteq_r].
    + destruct (process_detection_quiet db_ok d s Hf) as (_ & _ & -> & _).
      exact Hc.
  - destruct (admitted d); [| exact Hm]. rewrite dom_insert_L.
    etransitivity; [exact Hm | apply union_subseteq_r].
Qed.

Lemma growth_housekeeping s0 : housekeeping_stable (grown s0).
Proof.
  split; [| split; [| split]].
  - intros l s _ H. exact H.
  - intros v s H. exact H.
  - intros v s H. exact H.
  - intros v s H. exact H.
Qed.

Lemma main_loop_grows env s0 n k :
  grown (fst (main_loop db_ok env s0 n)) (fst (main_loop db_ok env s0 (n + k))).
Proof.
  induction k as [| k IH].
  - rewrite Nat.add_0_r. split; reflexivity.
  - rewrite Nat.add_succ_r, main_loop_succ.
    destruct (snd (main_loop db_ok env s0 (n + k))); [| exact IH].
    apply (iteration_preserves db_ok _ (fun _ => True));
      [apply growth_housekeeping | trivial | | exact IH].
    intros d s _. apply growth_step.
Qed.

(** X9: nothing is ever forgotten: along any run the set of counted ids and
    the set of ids with a remembered position only grow, and every counted
    id has a remembered position. *)
Theorem memory_never_forgets (t0 : Q) (f0 : file_state)
    (env : nat -> tick) (n k : nat) :
  let s := fst (program db_ok t0 f0 env n) in
  let s' := fst (program db_ok t0 f0 env (n + k)) in
  counted_ids s ⊆ counted_ids s' /\
  dom (object_memory s) ⊆ dom (object_memory s') /\
  counted_ids s ⊆ dom (object_memory s).
Proof.
  cbv zeta. unfold program.
  destruct (main_loop_grows env (startup t0 f0) n k) as [Hc Hm].
  split; [exact Hc | split; [exact Hm |]].
  apply (main_loop_preserves db_ok
           (fun s => counted_ids s ⊆ dom (object_memory s)) (fun _ => True)).
  - split; [| split; [| split]].
    + intros l s _ H. exact H.
    + intros v s H. exact H.
    + intros v s H. exact H.
    + intros v s H. exact H.
  - trivial.
  - intros d s _ H.
    destruct (process_detection_frame db_ok d s) as (_ & _ & _ & ->).
    destruct (fires d s) eqn:Hf.
    + destruct (process_detection_counted db_ok d s Hf) as (_ & _ & -> & _).
      rewrite (fires_admitted d s Hf), dom_insert_L.
      apply union_mono_l, H.
    + destruct (process_detection_quiet db_ok d s Hf) as (_ & _ & -> & _).
      destruct (admitted d); [| exact H]. rewrite dom_insert_L.
      etransitivity; [exact H | apply union_subseteq_r].
  - destruct (startup_outputs t0 f0) as (_ & _ & -> & _).
    apply empty_subseteq.
Qed.

End Run.

(** ** Frame skipping and leaving the loop *)

Section LoopControl.

Variable db_ok : nat -> bool.

Lemma frame_count_prints out s :
  frame_count (fold_left (fun s l => print l s) out s) = frame_count s.
Proof.
  revert s. induction out as [| l out IH]; intros s; cbn; [reflexivity |].
  rewrite IH. reflexivity.
Qed.

Lemma frame_count_location_check t s :
  frame_count (location_check t s) = frame_count s.
Proof.
  unfold location_check. destruct (Qgtb _ _); [| reflexivity].
  destruct (get_current_location (location_file t)) as [new_location out].
  destruct (negb _); cbn; apply frame_count_prints.
Qed.

Lemma frame_count_process_frame ds s :
  frame_count (process_frame db_ok ds s) = frame_count s.
Proof.
  apply (process_frame_preserves db_ok
           (fun s' => frame_count s' = frame_count s) (fun _ => True)).
  - trivial.
  - intros d s' _ H. destruct (process_detection_frame db_ok d s') as (_ & -> & _).
    exact H.
  - reflexivity.
Qed.

Lemma frame_count_iteration t s :
  frame_count (fst (iteration db_ok t s))
  = frame_count s + (if cap_read t then 1 else 0).
Proof.
  unfold iteration. destruct (cap_read t); cbn [negb fst]; [| cbn; lia].
  destruct (negb _); cbn [fst]; [reflexivity |].
  destruct (tracked t) as [ds |].
  - rewrite frame_count_process_frame, frame_count_location_check. reflexivity.
  - rewrite frame_count_location_check. reflexivity.
Qed.

Lemma frames_read_succ env k :
  frames_read env (S k) = frames_read env k + (if cap_read (env k) then 1 else 0).
Proof.
  unfold frames_read. rewrite seq_S, List.filter_app, length_app. cbn.
  destruct (cap_read (env k)); cbn; lia.
Qed.

Lemma running_before env s0 k :
  snd (main_loop db_ok env s0 (S k)) = true ->
  snd (main_loop db_ok env s0 k) = true.
Proof.
  rewrite main_loop_succ.
  destruct (snd (main_loop db_ok env s0 k)); [reflexivity | intros H; exact H].
Qed.

(** X11: while the loop is running, [frame_count] is the number of passes
    that read a frame; a pass whose read fails does not advance it. *)
Theorem frame_count_counts_reads (t0 : Q) (f0 : file_state)
    (env : nat -> tick) (n : nat) :
  snd (program db_ok t0 f0 env n) = true ->
  frame_count (fst (program db_ok t0 f0 env n)) = frames_read env n.
Proof.
  unfold program. induction n as [| k IH]; intros Hrun.
  - cbn [main_loop fst].
    destruct (startup_outputs t0 f0) as (_ & _ & _ & _ & -> & _). reflexivity.
  - pose proof (running_before env _ k Hrun) as Hk.
    rewrite main_loop_succ, Hk, frame_count_iteration, (IH Hk), frames_read_succ.
    reflexivity.
Qed.

(** X10: a pass leaves the loop exactly when it reads a frame, that frame
    is one of those processed (the new [frame_count] is a multiple of
    [FRAME_SKIP]) and the key code returned by [waitKey] is 27 modulo 256.
    A key pressed during a skipped frame or a failed read is not seen. *)
Theorem loop_left_iff (t : tick) (s : state) :
  snd (iteration db_ok t s) = false <->
  cap_read t = true /\
  (frame_count s + 1) mod FRAME_SKIP = 0 /\
  key t mod 256 = 27.
Proof.
  unfold iteration.
  change 255 with (Z.ones 8). rewrite Z.land_ones by lia. change (2 ^ 8) with 256.
  destruct (cap_read t); cbn [negb snd].
  - cbn [frame_count set_frame_count].
    destruct (Z.eqb_spec ((frame_count s + 1) mod FRAME_SKIP) 0) as [E | E];
      cbn [negb snd].
    + destruct (Z.eqb_spec (key t mod 256) 27) as [K | K]; cbn [negb]; split.
      * intros _. repeat split; assumption.
      * reflexivity.
      * discriminate.
      * intros (_ & _ & K'). contradiction.
    + split; [discriminate | intros (_ & E' & _); contradiction].
  - split; [discriminate | intros (H & _); discriminate H].
Qed.

End LoopControl.

Lemma frame_count_counts_reads_witness :
  snd (program always_ok 0 Missing there_and_back 9) = true /\
  frame_count (fst (program always_ok 0 Missing there_and_back 9)) = 9.
Proof.
  assert (H : snd (program always_ok 0 Missing there_and_back 9) = true)
    by (vm_compute; reflexivity).
  exact (conj H (frame_count_counts_reads always_ok 0 Missing there_and_back 9 H)).
Defined.

(** ** The location stamped on events *)

Section LocationValue.

Import Text.

Lemma rstrip_idempotent text : rstrip (rstrip text) = rstrip text.
Proof.
  induction text as [| c r IH]; [reflexivity |].
  cbn [rstrip]. destruct (rstrip r) as [| c' r'] eqn:Hr.
  - destruct (is_space c) eqn:Hc; [reflexivity |]. cbn. rewrite Hc. reflexivity.
  - cbn [rstrip] in *. rewrite IH. reflexivity.
Qed.

Lemma rstrip_keeps_head c r :
  is_space c = false -> exists r', rstrip (String c r) = String c r'.
Proof.
  intros Hc. cbn. rewrite Hc. destruct (rstrip r); eauto.
Qed.

Lemma strip_idempotent text : strip (strip text) = strip text.
Proof.
  unfold strip. destruct (lstrip text) as [| c r] eqn:HL; [reflexivity |].
  pose proof (lstrip_head text c r HL) as Hc.
  destruct (rstrip_keeps_head c r Hc) as [r' Hr].
  assert (lstrip (rstrip (String c r)) = rstrip (String c r)) as ->.
  { rewrite Hr. cbn. rewrite Hc. reflexivity. }
  apply rstrip_idempotent.
Qed.

Lemma default_location_clean : clean DEFAULT_LOCATION.
Proof. split; [discriminate | reflexivity]. Qed.

Lemma get_current_location_is_clean f : clean (fst (get_current_location f)).
Proof.
  destruct f as [| | text]; cbn; try apply default_location_clean.
  destruct (String.eqb_spec (strip text) "") as [_ | Hne]; cbn.
  - apply default_location_clean.
  - split; [exact Hne | apply strip_idempotent].
Qed.

(** X12: the location reader never returns an empty id, nor one with white
    space around it, whatever the file holds; and a file holding exactly
    the value it returned is read back as that value, with nothing
    printed. *)
Theorem location_reader_result (f : file_state) :
  fst (get_current_location f) <> "" /\
  strip (fst (get_current_location f)) = fst (get_current_location f) /\
  get_current_location (Contents (fst (get_current_location f)))
  = (fst (get_current_location f), []).
Proof.
  destruct (get_current_location_is_clean f) as [Hne Hstrip].
  split; [exact Hne | split; [exact Hstrip |]].
  cbn. rewrite Hstrip.
  destruct (String.eqb_spec (fst (get_current_location f)) "");
    [contradiction | reflexivity].
Qed.

Variable db_ok : nat -> bool.

Lemma location_check_clean t s :
  clean (current_location s) -> clean (current_location (location_check t s)).
Proof.
  intros H. destruct (Qgtb (time_now t - last_location_check s) 5) eqn:E.
  - rewrite (location_check_due t s E). apply get_current_location_is_clean.
  - rewrite (location_check_not_due t s); [exact H |].
    unfold check_due. rewrite E. discriminate.
Qed.

Lemma iteration_clean t s :
  clean (current_location s) /\
  Forall (fun a => clean (location_id (offered a))) (database s) ->
  clean (current_location (fst (iteration db_ok t s))) /\
  Forall (fun a => clean (location_id (offered a)))
         (database (fst (iteration db_ok t s))).
Proof.
  intros [Hloc Hdb]. unfold iteration.
  destruct (negb (cap_read t)); cbn [fst]; [split; assumption |].
  destruct (negb _); cbn [fst]; [split; assumption |].
  set (s1 := location_check t (set_frame_count (frame_count s + 1) s)).
  assert (H1 : clean (current_location s1)) by (apply location_check_clean, Hloc).
  assert (H2 : database s1 = database s).
  { destruct (location_check_outputs t (set_frame_count (frame_count s + 1) s))
      as (E & _). exact E. }
  destruct (tracked t) as [ds |]; [| split; [exact H1 | rewrite H2; exact Hdb]].
  destruct (process_frame_rows db_ok ds s1) as (new & -> & _ & _ & Hnew & ->).
  split; [exact H1 |]. rewrite H2. apply Forall_app. split; [exact Hdb |].
  eapply Forall_impl; [exact Hnew |]. intros a Ha. cbn in Ha. rewrite Ha. exact H1.
Qed.

(** X13: in every run the location held by the engine is never empty and
    has no white space around it, and the same holds for the location of
    every row offered to the database: no event is recorded without a
    location. *)
Theorem location_always_usable (t0 : Q) (f0 : file_state)
    (env : nat -> tick) (n : nat) :
  clean (current_location (fst (program db_ok t0 f0 env n))) /\
  Forall (fun a => clean (location_id (offered a)))
         (database (fst (program db_ok t0 f0 env n))).
Proof.
  unfold program. induction n as [| k IH].
  - cbn [main_loop fst].
    destruct (startup_outputs t0 f0) as (-> & _ & _ & _ & _ & ->).
    split; [apply get_current_location_is_clean | constructor].
  - rewrite main_loop_succ.
    destruct (snd (main_loop db_ok env (startup t0 f0) k)); [| exact IH].
    apply iteration_clean, IH.
Qed.

End LocationValue.

(** ** The class mapping *)

Section ClassMapping.

Import Text.

Lemma lower_char_idempotent c : lower_char (lower_char c) = lower_char c.
Proof. destruct c as [[] [] [] [] [] [] [] []]; reflexivity. Qed.

Lemma lower_idempotent text : lower (lower text) = lower text.
Proof.
  induction text as [| c r IH]; [reflexivity |].
  cbn. rewrite lower_char_idempotent, IH. reflexivity.
Qed.

Lemma map_vehicle_class_cases l :
  (recognized l = true /\ map_vehicle_class l = l) \/
  (recognized l = false /\ map_vehicle_class l = lower l).
Proof.
  unfold map_vehicle_class, recognized.
  destruct (String.eqb_spec l "car") as [-> | _]; [left; split; reflexivity |].
  destruct (String.eqb_spec l "motorcycle") as [-> | _]; [left; split; reflexivity |].
  destruct (String.eqb_spec l "truck") as [-> | _]; [left; split; reflexivity |].
  destruct (String.eqb_spec l "bus") as [-> | _]; [left; split; reflexivity |].
  right. split; reflexivity.
Qed.

(** X14: the class mapping is idempotent on every label, leaves the four
    recognized labels as they are and lower-cases every other label. *)
Theorem map_vehicle_class_idempotent (l : string) :
  map_vehicle_class (map_vehicle_class l) = map_vehicle_class l /\
  (recognized l = true -> map_vehicle_class l = l) /\
  (recognized l = false -> map_vehicle_class l = lower l).
Proof.
  split; [| split].
  - destruct (map_vehicle_class_cases l) as [[_ H] | [_ H]]; rewrite H.
    + exact H.
    + destruct (map_vehicle_class_cases (lower l)) as [[_ ->] | [_ ->]];
        [reflexivity | apply lower_idempotent].
  - intros Hr. destruct (map_vehicle_class_cases l) as [[_ H] | [Hr' _]];
      [exact H | congruence].
  - intros Hr. destruct (map_vehicle_class_cases l) as [[Hr' _] | [_ H]];
      [congruence | exact H].
Qed.

Lemma map_vehicle_class_idempotent_witness :
  (recognized "truck" = true /\ map_vehicle_class "truck" = "truck") /\
  (recognized "Bicycle" = false /\ map_vehicle_class "Bicycle" = "bicycle").
Proof.
  destruct (map_vehicle_class_idempotent "truck") as (_ & H1 & _).
  destruct (map_vehicle_class_idempotent "Bicycle") as (_ & _ & H2).
  split.
  - split; [reflexivity | apply H1; reflexivity].
  - split; [reflexivity | apply H2; reflexivity].
Defined.

End ClassMapping.

(** ** The dashboard application *)

Section Dashboard.

Import App.

Lemma locations_keys location_id :
  is_Some (LOCATIONS !! location_id) ->
  location_id = "Basni Crossing" \/
  location_id = "Bhagat ki kothi crossing" \/
  location_id = "Rai ka bagh crossing".
Proof.
  intros [name H]. unfold LOCATIONS in H.
  apply elem_of_list_to_map_2 in H.
  repeat (apply elem_of_cons in H as [H | H]; [injection H as -> _; tauto |]).
  apply elem_of_nil in H. contradiction.
Qed.

(** X15: selecting a location and reading it back.  For an id of the
    catalogue, when the write succeeds the file holds the id, the backend
    reads back exactly that id and a due location check makes it the
    current location, and the dashboard of that id exists; the response is
    the redirect whether or not the write succeeded.  For any other id the
    answer is 404 and the file is left as it was. *)
Theorem set_active_location_round_trip (location_id : string) (f : file_state) :
  (is_Some (LOCATIONS !! location_id) ->
     set_active_location Written location_id f
     = (Redirect "dashboard" location_id, Contents location_id,
        [FrontendUpdated location_id]) /\
     get_current_location (Contents location_id) = (location_id, []) /\
     (forall t s, check_due t s -> location_file t = Contents location_id ->
        current_location (location_check t s) = location_id) /\
     (forall w, fst (fst (set_active_location w location_id f))
                = Redirect "dashboard" location_id) /\
     dashboard location_id <> Status404 "Location not found") /\
  (LOCATIONS !! location_id = None ->
     forall w, set_active_location w location_id f
               = (Status404 "Location not found", f, [])).
Proof.
  split.
  - intros Hin.
    assert (Hread : get_current_location (Contents location_id) = (location_id, [])).
    { destruct (locations_keys location_id Hin) as [-> | [-> | ->]]; reflexivity. }
    destruct Hin as [name Hname].
    unfold set_active_location, dashboard. rewrite Hname.
    split; [reflexivity | split; [exact Hread | split; [| split]]].
    + intros t s Hdue Hfile. rewrite (location_check_due t s Hdue), Hfile, Hread.
      reflexivity.
    + intros [| after]; reflexivity.
    + discriminate.
  - intros Hout w. unfold set_active_location. rewrite Hout. reflexivity.
Qed.

Lemma set_active_location_round_trip_witness :
  let held := startup 0 Missing in
  let t := Tick true 6 (Contents "Rai ka bagh crossing") None (-1) in
  (is_Some (LOCATIONS !! "Rai ka bagh crossing") /\
   check_due t held /\
   current_location (location_check t held) = "Rai ka bagh crossing") /\
  (LOCATIONS !! "Ratanada" = None /\
   set_active_location Written "Ratanada" (Contents "Basni Crossing")
   = (Status404 "Location not found", Contents "Basni Crossing", [])).
Proof.
  intros held t.
  assert (H1 : is_Some (LOCATIONS !! "Rai ka bagh crossing"))
    by (vm_compute; eauto).
  assert (H2 : check_due t held) by reflexivity.
  assert (H3 : LOCATIONS !! "Ratanada" = None) by (vm_compute; reflexivity).
  destruct (set_active_location_round_trip "Rai ka bagh crossing" Missing)
    as ((_ & _ & Hcheck & _) & _); [exact H1 |].
  destruct (set_active_location_round_trip "Ratanada" (Contents "Basni Crossing"))
    as (_ & Hmiss).
  split.
  - exact (conj H1 (conj H2 (Hcheck t held H2 eq_refl))).
  - exact (conj H3 (Hmiss H3 Written)).
Defined.

(** X16: the date range handed to the queries.  In all four endpoints the
    assertion that follows the defaulting of [start] and [end] holds for
    every request; the second defaulting block of [summary_data] never
    changes anything; two non-empty parameters are used as given, a single
    non-empty one is used for both ends, and when today's date is not the
    empty string both ends are non-empty. *)
Theorem date_range_always_set (today six_days_ago : string)
    (start_date end_date : option string) :
  range_assertion (date_range today start_date end_date) = true /\
  range_assertion (summary_date_range today start_date end_date) = true /\
  range_assertion (daily_date_range today six_days_ago start_date end_date) = true /\
  summary_date_range today start_date end_date
  = date_range today start_date end_date /\
  (truthy start_date = true -> truthy end_date = true ->
     date_range today start_date end_date = (start_date, end_date)) /\
  (truthy start_date = true -> truthy end_date = false ->
     date_range today start_date end_date = (start_date, start_date)) /\
  (truthy start_date = false -> truthy end_date = true ->
     date_range today start_date end_date = (end_date, end_date)) /\
  (today <> "" ->
     truthy (fst (date_range today start_date end_date)) = true /\
     truthy (snd (date_range today start_date end_date)) = true).
Proof.
  unfold summary_date_range, daily_date_range, date_range, fill_range.
  destruct start_date as [a |], end_date as [b |]; cbn [truthy];
    try destruct (String.eqb_spec a "") as [-> | Ha];
    try destruct (String.eqb_spec b "") as [-> | Hb];
    cbn; repeat split; try reflexivity; try discriminate;
    try (destruct (String.eqb_spec today ""); [contradiction | reflexivity]);
    try (destruct (String.eqb_spec a ""); [contradiction | reflexivity]);
    try (destruct (String.eqb_spec b ""); [contradiction | reflexivity]);
    try (destruct (String.eqb_spec today ""); reflexivity);
    try (destruct (String.eqb_spec a ""); reflexivity);
    try (destruct (String.eqb_spec b ""); reflexivity).
Qed.

End Dashboard.

Lemma date_range_always_set_witness :
  let today := "2025-01-15" in
  let given := Some "2025-01-01" in
  (App.truthy given = true /\ App.truthy None = false /\
   App.date_range today given None = (given, given)) /\
  (App.truthy given = true /\ App.truthy (Some "2025-01-07") = true /\
   App.date_range today given (Some "2025-01-07") = (given, Some "2025-01-07")) /\
  (App.truthy (Some "") = false /\ App.truthy given = true /\
   App.date_range today (Some "") given = (given, given)) /\
  (today <> "" /\ App.date_range today None (Some "") = (Some today, Some today)).
Proof.
  intros today given.
  split; [| split; [| split]].
  - destruct (date_range_always_set today "2025-01-09" given None)
      as (_ & _ & _ & _ & _ & H & _).
    exact (conj eq_refl (conj eq_refl (H eq_refl eq_refl))).
  - destruct (date_range_always_set today "2025-01-09" given (Some "2025-01-07"))
      as (_ & _ & _ & _ & H & _).
    exact (conj eq_refl (conj eq_refl (H eq_refl eq_refl))).
  - destruct (date_range_always_set today "2025-01-09" (Some "") given)
      as (_ & _ & _ & _ & _ & _ & H & _).
    exact (conj eq_refl (conj eq_refl (H eq_refl eq_refl))).
  - assert (Hne : today <> "") by discriminate.
    destruct (date_range_always_set today "2025-01-09" None (Some ""))
      as (_ & _ & _ & _ & _ & _ & _ & H).
    destruct (H Hne) as [_ _]. split; [exact Hne | reflexivity].
Defined.

Section VehicleTypes.

Import App.

Lemma tally_row_dom (counts : gmap string Z) (r : string * Z) :
  dom (tally_row counts r) = dom counts.
Proof.
  destruct r as [ty n]. unfold tally_row.
  destruct (counts !! ty) as [old |] eqn:H; [| reflexivity].
  rewrite dom_insert_L. apply subseteq_union_1_L.
  apply singleton_subseteq_l, elem_of_dom. eauto.
Qed.

Lemma tally_dom (results : list (string * Z)) (counts : gmap string Z) :
  dom (fold_left tally_row results counts) = dom counts.
Proof.
  revert counts. induction results as [| r rs IH]; intros counts; [reflexivity |].
  cbn. rewrite IH. apply tally_row_dom.
Qed.

Lemma tally_absent (results : list (string * Z)) (counts : gmap string Z) ty :
  ty ∉ List.map fst results ->
  fold_left tally_row results counts !! ty = counts !! ty.
Proof.
  revert counts. induction results as [| [ty' n] rs IH]; intros counts Hty;
    [reflexivity |].
  cbn in *. apply not_elem_of_cons in Hty as [Hne Hty].
  rewrite (IH _ Hty). unfold tally_row.
  destruct (counts !! ty'); [| reflexivity].
  apply lookup_insert_ne. congruence.
Qed.

(** X17: the vehicle-type breakdown.  Whatever rows the query returns, the
    answer has exactly the keys "car", "truck" and "motorcycle": a row of
    any other type is dropped.  A type with no row is reported with its
    initial value, and the count of the last row of a type is the one
    reported. *)
Theorem vehicle_counts_keys (results : list (string * Z)) :
  (forall ty, is_Some (vehicle_counts results !! ty) <->
              ty = "car" \/ ty = "truck" \/ ty = "motorcycle") /\
  (forall ty, ty ∉ List.map fst results ->
              vehicle_counts results !! ty = no_vehicles !! ty) /\
  (forall ty n, is_Some (no_vehicles !! ty) ->
                vehicle_counts (results ++ [(ty, n)]) !! ty = Some n).
Proof.
  assert (Hdom : forall rs ty, is_Some (vehicle_counts rs !! ty) <->
                               ty = "car" \/ ty = "truck" \/ ty = "motorcycle").
  { intros rs ty. rewrite <- elem_of_dom. unfold vehicle_counts.
    rewrite tally_dom. unfold no_vehicles.
    rewrite !dom_insert_L, dom_empty_L.
    rewrite !elem_of_union, !elem_of_singleton, elem_of_empty. tauto. }
  split; [apply Hdom | split].
  - intros ty Hty. apply tally_absent, Hty.
  - intros ty n Hty. unfold vehicle_counts. rewrite fold_left_app. cbn.
    assert (Hin : is_Some (fold_left tally_row results no_vehicles !! ty)).
    { apply (Hdom results ty). apply (Hdom [] ty). exact Hty. }
    destruct Hin as [old Hold]. rewrite Hold. apply lookup_insert_eq.
Qed.

Lemma vehicle_counts_keys_witness :
  let results := [("bus", 4); ("car", 12); ("truck", 3)] in
  (("motorcycle" ∉ List.map fst results) /\
   vehicle_counts results !! "motorcycle" = Some 0) /\
  (is_Some (no_vehicles !! "car") /\
   vehicle_counts (results ++ [("car", 15)]) !! "car" = Some 15) /\
  (is_Some (vehicle_counts results !! "truck") /\
   ~ is_Some (vehicle_counts results !! "bus")).
Proof.
  intros results.
  destruct (vehicle_counts_keys results) as (Hkeys & Habsent & Hlast).
  assert (H1 : "motorcycle" ∉ List.map fst results).
  { cbn. intros H. repeat (apply elem_of_cons in H as [H | H]; [discriminate H |]).
    apply elem_of_nil in H. exact H. }
  assert (H2 : is_Some (no_vehicles !! "car")) by (vm_compute; eauto).
  split; [| split].
  - split; [exact H1 |]. rewrite (Habsent _ H1). vm_compute. reflexivity.
  - exact (conj H2 (Hlast "car" 15 H2)).
  - split.
    + apply Hkeys. right; left. reflexivity.
    + intros H. apply Hkeys in H as [H | [H | H]]; discriminate H.
Defined.

End VehicleTypes.

Lemma loop_left_iff_witness :
  let s := fst (program always_ok 0 Missing there_and_back 2) in
  let esc := Tick true 0 Missing None (27 + 256) in
  let skipped := Tick true 0 Missing None 27 in
  (cap_read esc = true /\ (frame_count s + 1) mod FRAME_SKIP = 0 /\
   key esc mod 256 = 27 /\ snd (iteration always_ok esc s) = false) /\
  snd (iteration always_ok skipped (fst (iteration always_ok esc s))) = true.
Proof.
  intros s esc skipped. split; [| vm_compute; reflexivity].
  assert (H1 : cap_read esc = true) by reflexivity.
  assert (H2 : (frame_count s + 1) mod FRAME_SKIP = 0) by (vm_compute; reflexivity).
  assert (H3 : key esc mod 256 = 27) by reflexivity.
  exact (conj H1 (conj H2 (conj H3
           (proj2 (loop_left_iff always_ok esc s) (conj H1 (conj H2 H3)))))).
Defined.

Lemma counted_ids_are_recorded_ids_witness :
  let s := fst (program never_ok 0 Missing there_and_back 9) in
  7 ∈ offered_ids (database s) /\ 7 ∈ counted_ids s /\ size (counted_ids s) = 1%nat.
Proof.
  intros s.
  destruct (counted_ids_are_recorded_ids never_ok 0 Missing there_and_back 9)
    as (Hiff & _ & Hsize).
  assert (H : 7 ∈ offered_ids (database s)) by (vm_compute; apply elem_of_cons; left; reflexivity).
  exact (conj H (conj (proj2 (Hiff 7) H) Hsize)).
Defined.

(** ** Why a detection is counted, and under which location *)

Section Counted.

Variable db_ok : nat -> bool.

(** X18: no count without a crossing: a detection is counted only if its
    object has a remembered position, that position differs from the new
    centre, and the segment from the one to the other has a point in common
    with the gate. *)
Theorem counted_only_when_gate_met (d : detection) (s : state) :
  fires d s = true ->
  exists p : point,
    object_memory s !! box_id d = Some p /\
    p <> center d /\
    exists X, on_segment LINE_START LINE_END X /\ on_segment p (center d) X.
Proof.
  intros Hf. unfold fires in Hf.
  apply andb_prop in Hf as [Hf _]. apply andb_prop in Hf as [_ Hcross].
  destruct (object_memory s !! box_id d) as [p |] eqn:Hmem.
  - exists p. cbn [default] in Hcross. split; [reflexivity | split].
    + intros ->. rewrite crossed_line_zero_length in Hcross. discriminate.
    + apply crossed_line_meets, Hcross.
  - cbn [default] in Hcross. rewrite crossed_line_zero_length in Hcross.
    discriminate.
Qed.




End Counted.

Lemma counted_only_when_gate_met_witness :
  let s := fst (program always_ok 0 Missing there_and_back 3) in
  let d := see 7 "car" 300 100 (9 # 10) in
  fires d s = true /\
  exists p : point,
    object_memory s !! box_id d = Some p /\
    p <> center d /\
    exists X, on_segment LINE_START LINE_END X /\ on_segment p (center d) X.
Proof.
  intros s d.
  assert (H : fires d s = true) by (vm_compute; reflexivity).
  exact (conj H (counted_only_when_gate_met d s H)).
Defined.

